(** * Alert manager of the DEX monitoring system

    A shallow embedding of [src/dex_monitor/alerts/alert_manager.py]
    ([AlertManager]) and of the parts of the data model it touches.

    Modelling decisions, fixed once for the whole development:

    - The [float] values that the manager is handed (prices, amounts,
      thresholds) are finite, and each is given by the rational number it
      stands for ([Q]); the comparisons of the source ([>], [<]) become
      boolean tests.  Equalities between measured quantities are stated
      with [==].
    - The arithmetic of the volume rule (the volume of a swap, the sum
      and the mean of the window, the product with the threshold, the
      multiplier) rounds as binary64 does, to the nearest double, ties
      to even, with gradual underflow and overflow to infinity: see
      [round64].  [sum] adds from left to right, as CPython does up to
      version 3.11.  The two zeros of binary64 are not told apart, which
      no comparison of the source does either.
    - The depeg rule and the price-change rule compute on the rationals
      themselves.  Of the depeg rule's operations the division, which is
      by [1.0], and the absolute value are exact in binary64 too, and so
      is the subtraction [actual - 1.0] for prices between 0.5 and 2.
    - [datetime] values are integers (microseconds); [timedelta] likewise.
    - The manager object ([self]) is a record threaded through a state
      monad.  A raised exception is a second outcome of that monad; the
      state reached before a raise is kept, as in Python.  Exceptions
      that are instances of [Exception] are told apart from those that
      are not, since [except Exception] only catches the former.
    - What the manager cannot decide itself is read from oracles: the
      readings of [datetime.utcnow()], the values of [uuid.uuid4()], and
      whether the persistence sink or a consumer callback raises, and
      what.
    - Every call that leaves the manager (persistence write, callback,
      logger) is appended to a chronological trace.
    - One call of [process_event] or [resolve_alert] is taken as a whole:
      the interleaving of coroutines at the [await] points is not modelled,
      and callbacks do not call back into the manager.
    - Display strings built with float formatting ([message]) are left out
      of the alert record, and so is the [data] dictionary that the
      specialised alert classes derive from their typed fields; no rule
      reads them. *)

From Stdlib Require Import ZArith QArith Qabs Qround Qpower String List Lia Lqa.
From stdpp Require Import base option list gmap strings pretty.

Open Scope string_scope.
Open Scope list_scope.

(** ** Numbers *)

(** [x > y] on floats. *)
Definition Qgtb (x y : Q) : bool := negb (Qle_bool x y).

(** Truthiness of a float: [0.0] is falsy. *)
Definition Qtruthy (x : Q) : bool := negb (Qeq_bool x 0).

(** [x or d] for an optional float [x]: [None] and [0.0] are falsy. *)
Definition py_or (x : option Q) (d : Q) : Q :=
  match x with
  | Some v => if Qtruthy v then v else d
  | None => d
  end.

(** ** Binary64

    A double is a finite number, one of the two infinities, or a NaN.
    A finite double is kept as the rational it stands for. *)
Inductive F64 :=
  | Fin (q : Q)
  | PosInf
  | NegInf
  | NaN.

(** The nearest integer, the even one of the two on a tie. *)
Definition round_half_even (q : Q) : Z :=
  let f := Qfloor q in
  match (q - inject_Z f ?= 1 # 2)%Q with
  | Lt => f
  | Gt => (f + 1)%Z
  | Eq => if Z.even f then f else (f + 1)%Z
  end.

(** The exponent [e] with [2^e <= q < 2^(e+1)], for a positive [q]: the
    difference of the bit lengths of numerator and denominator, or one
    less. *)
Definition floor_log2 (q : Q) : Z :=
  let e0 := (Z.log2 (Qnum q) - Z.log2 (Zpos (Qden q)))%Z in
  if Qle_bool (2 ^ e0) q then e0 else (e0 - 1)%Z.

Definition overflow_threshold : Q := 2 ^ 1024.

(** Rounding of a real result to binary64: to the nearest number with a
    significand of 53 bits at the exponent of the argument, and not below
    the least exponent [-1022] (gradual underflow); ties go to the even
    significand; what is rounded to [2^1024] or beyond is an infinity. *)
Definition round64 (x : Q) : F64 :=
  let q := Qred x in
  if Qeq_bool q 0 then Fin 0 else
  let a := Qabs q in
  let e := Z.max (floor_log2 a) (-1022) in
  let ulp := (2 ^ (e - 52))%Q in
  let r := (inject_Z (round_half_even (a / ulp)) * ulp)%Q in
  if Qle_bool overflow_threshold r
  then (if Qle_bool q 0 then NegInf else PosInf)
  else Fin (Qred (if Qle_bool q 0 then - r else r)).



(** [x + y]. *)
Definition fl_add (x y : F64) : F64 :=
  match x, y with
  | NaN, _ => NaN
  | _, NaN => NaN
  | PosInf, NegInf => NaN
  | NegInf, PosInf => NaN
  | PosInf, _ => PosInf
  | _, PosInf => PosInf
  | NegInf, _ => NegInf
  | _, NegInf => NegInf
  | Fin a, Fin b => round64 (a + b)
  end.

(** The sign of a double that is not a NaN: -1, 0 or 1. *)
Definition fl_sign (x : F64) : Z :=
  match x with
  | Fin a => match (a ?= 0)%Q with Lt => (-1)%Z | Eq => 0%Z | Gt => 1%Z end
  | PosInf => 1%Z
  | NegInf => (-1)%Z
  | NaN => 0%Z
  end.

(** The infinity of a given sign; a NaN for the sign of zero. *)
Definition fl_inf (sign : Z) : F64 :=
  match sign with
  | Z0 => NaN
  | Zpos _ => PosInf
  | Zneg _ => NegInf
  end.

(** [x * y]. *)
Definition fl_mul (x y : F64) : F64 :=
  match x, y with
  | NaN, _ => NaN
  | _, NaN => NaN
  | Fin a, Fin b => round64 (a * b)
  | _, _ => fl_inf (fl_sign x * fl_sign y)
  end.

(** [x / y] for a divisor that is not zero. *)
Definition fl_quot (x y : F64) : F64 :=
  match x, y with
  | NaN, _ => NaN
  | _, NaN => NaN
  | Fin a, Fin b => round64 (a / b)
  | Fin _, _ => Fin 0
  | _, Fin _ => fl_inf (fl_sign x * fl_sign y)
  | _, _ => NaN
  end.

(** [x > y]: false as soon as one side is a NaN. *)
Definition fl_gtb (x y : F64) : bool :=
  match x, y with
  | NaN, _ => false
  | _, NaN => false
  | Fin a, Fin b => Qgtb a b
  | PosInf, PosInf => false
  | PosInf, _ => true
  | NegInf, _ => false
  | Fin _, PosInf => false
  | Fin _, NegInf => true
  end.

(** [y == 0]. *)
Definition fl_is_zero (y : F64) : bool :=
  match y with
  | Fin b => Qeq_bool b 0
  | _ => false
  end.

(** [sum(xs)] for a list of floats: from left to right, starting from
    the integer [0]. *)
Definition py_sum (xs : list F64) : F64 := fold_left fl_add xs (Fin 0).

(** ** Python sequences *)

(** Normalisation of one slice bound against a length, as [slice.indices]
    does for a positive step: negative bounds count from the end, and the
    result is clamped to [0 .. len]. *)
Definition slice_bound (len : nat) (i : Z) : nat :=
  let j := if (i <? 0)%Z then (i + Z.of_nat len)%Z else i in
  Z.to_nat (Z.min (Z.max j 0) (Z.of_nat len)).

(** [l[start:stop]]. *)
Definition py_slice {A} (start stop : Z) (l : list A) : list A :=
  let lo := slice_bound (length l) start in
  let hi := slice_bound (length l) stop in
  take (hi - lo) (drop lo l).

(** [deque(maxlen=maxlen).append(x)]: the item is appended on the right
    and, when the bound is exceeded, one item is discarded on the left. *)
Definition deque_append {A} (maxlen : nat) (x : A) (d : list A) : list A :=
  let d' := d ++ [x] in
  if (maxlen <? length d')%nat then drop 1 d' else d'.

(** An insertion-ordered [dict] with string keys, as an association list
    without duplicate keys: assignment to a present key keeps its place,
    assignment to a new key appends. *)
Module PyDict.
Section Ops.
Context {V : Type}.

Fixpoint get (k : string) (d : list (string * V)) : option V :=
  match d with
  | [] => None
  | (k', v) :: d' => if String.eqb k k' then Some v else get k d'
  end.

Definition contains (k : string) (d : list (string * V)) : bool :=
  match get k d with Some _ => true | None => false end.

Fixpoint set (k : string) (v : V) (d : list (string * V))
  : list (string * V) :=
  match d with
  | [] => [(k, v)]
  | (k', v') :: d' =>
      if String.eqb k k' then (k, v) :: d' else (k', v') :: set k v d'
  end.

Fixpoint del (k : string) (d : list (string * V)) : list (string * V) :=
  match d with
  | [] => []
  | (k', v') :: d' =>
      if String.eqb k k' then d' else (k', v') :: del k d'
  end.

Definition values (d : list (string * V)) : list V := map snd d.
Definition keys (d : list (string * V)) : list string := map fst d.
End Ops.
End PyDict.

(** ** Data model

    [core/models.py] is not part of the sources at hand; the records
    below carry the fields that the alert manager and the model tests
    read and write. *)

Inductive AlertSeverity := LOW | MEDIUM | HIGH | CRITICAL.

(** Modelled from the spec: the members of the enumeration [EventType]
    (declared in [core/models.py]); the manager names the last four. *)
Inductive EventType :=
  | SWAP | LIQUIDITY_ADD | LIQUIDITY_REMOVE
  | PRICE_CHANGE | DEPEG_ALERT | VOLUME_SPIKE.

Record Token := mkToken {
  symbol : string;
  address : string;
  decimals : Z;
  name : string;
  current_price : option Q
}.

Record TradingPair := mkTradingPair {
  token0 : Token;
  token1 : Token;
  pool_address : string;
  fee_tier : Q
}.

(** Modelled from the spec: the derived property [TradingPair.pair_name]
    (declared in [core/models.py]), the display name [symbol0/symbol1]. *)
Definition pair_name (p : TradingPair) : string :=
  symbol (token0 p) +:+ "/" +:+ symbol (token1 p).

Record SwapEvent := mkSwapEvent {
  swap_timestamp : Z;
  swap_pair : TradingPair;
  amount_in : Q;
  amount_out : Q;
  token_in : Token;
  token_out : Token;
  price : Q;
  transaction_hash : string;
  block_number : Z
}.

Record LiquidityEvent := mkLiquidityEvent {
  liq_timestamp : Z;
  liq_pair : TradingPair;
  liq_event_type : EventType;
  liquidity_delta : Q;
  provider : string
}.

Record PriceData := mkPriceData {
  pd_timestamp : Z;
  pd_token : Token;
  price_usd : Q;
  price_change_24h : option Q;
  volume_24h : option Q
}.

(** What [process_event] can be handed: the three recognised classes, and
    any other object. *)
Inductive Event :=
  | EvSwap (e : SwapEvent)
  | EvLiquidity (e : LiquidityEvent)
  | EvPrice (e : PriceData)
  | EvOther (repr : string).

(** Values of the [data] dictionary of a plain alert. *)
Inductive DataValue :=
  | DStr (s : string)
  | DNum (x : Q)
  | DNone.

(** The part of an alert that depends on its class. *)
Inductive AlertDetail :=
  | PlainAlert (data : list (string * DataValue))
  | DepegDetail (token : Token) (expected_price actual_price
                 deviation_percent : Q) (pair : TradingPair)
  | VolumeDetail (pair : TradingPair) (current_volume average_volume
                  spike_multiplier : F64).

Record Alert := mkAlert {
  alert_id : string;
  alert_timestamp : Z;
  alert_event_type : EventType;
  alert_severity : AlertSeverity;
  alert_title : string;
  alert_detail : AlertDetail;
  resolved : bool;
  resolved_at : option Z
}.

(** One entry of a rolling window: [{'timestamp': .., 'volume'/'price': ..}]. *)
Record Sample := mkSample {
  sample_timestamp : Z;
  sample_value : F64
}.

(** ** The manager and its environment *)

Record AlertManager := mkAlertManager {
  active_alerts : list (string * Alert);
  alert_callbacks : list nat;
  price_history : gmap string (list Sample);
  volume_history : gmap string (list Sample);
  depeg_threshold : Q;
  price_change_threshold : Q;
  volume_spike_threshold : Q;
  alert_cooldown : gmap string Z;
  cooldown_duration : Z
}.

(** Calls that leave the manager, in the order they happen. *)
Inductive IO :=
  | DbInsertAlert (a : Alert) (raised : bool)
  | CallbackCall (cb : nat) (a : Alert) (raised : bool)
  | LogError (msg : string)
  | LogInfo (msg : string).

Record St := mkSt {
  self : AlertManager;
  clock_reads : nat;
  uuid_draws : nat;
  trace : list IO
}.

(** The environment's answers.  The persistence sink and the callbacks
    may depend on everything that has happened so far.  When one of them
    raises, [sink_escapes] and [callback_escapes] tell whether what it
    raises lies outside class [Exception]. *)
Record Oracles := mkOracles {
  utcnow_at : nat -> Z;
  uuid4_at : nat -> string;
  insert_alert_raises : list IO -> Alert -> bool;
  callback_raises : nat -> list IO -> Alert -> bool;
  sink_escapes : list IO -> Alert -> bool;
  callback_escapes : nat -> list IO -> Alert -> bool
}.

(** What can be raised inside the manager.  The first three are
    instances of [Exception].  The last two stand for what derives from
    [BaseException] without deriving from [Exception]:
    [asyncio.CancelledError] (from Python 3.8 on) raised in an awaited
    callback, [SystemExit], [KeyboardInterrupt], [GeneratorExit]. *)
Inductive PyExn :=
  | ZeroDivisionError
  | SinkError
  | CallbackError (cb : nat)
  | SinkBaseException
  | CallbackBaseException (cb : nat).

(** [isinstance(e, Exception)]. *)
Definition is_Exception (e : PyExn) : bool :=
  match e with
  | SinkBaseException | CallbackBaseException _ => false
  | _ => true
  end.

Inductive Outcome (A : Type) :=
  | Normal (a : A)
  | Raised (e : PyExn).
Arguments Normal {A} a.
Arguments Raised {A} e.

Definition M (A : Type) : Type := St -> Outcome A * St.

Definition ret {A} (a : A) : M A := fun s => (Normal a, s).

Definition bind {A B} (c : M A) (k : A -> M B) : M B :=
  fun s =>
    match c s with
    | (Normal a, s') => k a s'
    | (Raised e, s') => (Raised e, s')
    end.

Definition raise {A} (e : PyExn) : M A := fun s => (Raised e, s).

(** [try: body  except Exception as e: handler(e)]: what is not an
    instance of [Exception] passes through. *)
Definition try_except {A} (body : M A) (handler : PyExn -> M A) : M A :=
  fun s =>
    match body s with
    | (Normal a, s') => (Normal a, s')
    | (Raised e, s') =>
        if is_Exception e then handler e s' else (Raised e, s')
    end.

Declare Scope py_scope.
Delimit Scope py_scope with py.
Notation "x <- c ;; k" := (bind c (fun x => k))
  (at level 100, c at next level, right associativity) : py_scope.
Notation "c ;; k" := (bind c (fun _ => k))
  (at level 100, right associativity) : py_scope.
Open Scope py_scope.

(** [for x in xs: body(x)]. *)
Fixpoint for_each {A} (xs : list A) (body : A -> M unit) : M unit :=
  match xs with
  | [] => ret tt
  | x :: xs' => body x ;; for_each xs' body
  end.

Definition get_self : M AlertManager := fun s => (Normal (self s), s).

Definition set_self (m : AlertManager) : M unit :=
  fun s => (Normal tt, mkSt m (clock_reads s) (uuid_draws s) (trace s)).

Definition emit_io (io : IO) : M unit :=
  fun s => (Normal tt,
            mkSt (self s) (clock_reads s) (uuid_draws s) (trace s ++ [io])).

Definition get_trace : M (list IO) := fun s => (Normal (trace s), s).

(** [x / y] in binary64: a zero divisor raises. *)
Definition fl_div (x y : F64) : M F64 :=
  if fl_is_zero y then raise ZeroDivisionError else ret (fl_quot x y).

(** [x / y] on the numbers of the depeg rule, whose divisor is [1.0]. *)
Definition py_div (x y : Q) : M Q :=
  if Qeq_bool y 0 then raise ZeroDivisionError else ret (x / y)%Q.

Definition logger_error (msg : string) : M unit := emit_io (LogError msg).
Definition logger_info (msg : string) : M unit := emit_io (LogInfo msg).

(** ** [AlertManager] *)

(** The literal defaults of [__init__]; [timedelta(minutes=10)] in
    microseconds. *)
Definition default_depeg_threshold : Q := (5 # 100)%Q.
Definition default_price_change_threshold : Q := (10 # 100)%Q.
Definition default_volume_spike_threshold : Q := 2%Q.
Definition ten_minutes : Z := 600000000%Z.

(** [AlertManager.__init__]; the three arguments are what the
    configuration holds under [alerts.depeg_threshold],
    [alerts.price_change_threshold] and [alerts.volume_spike_threshold]
    ([None] when the key is missing, [config.get] then gives the default). *)
Definition init (cfg_depeg cfg_price cfg_volume : option Q) : AlertManager :=
  {| active_alerts := [];
     alert_callbacks := [];
     price_history := ∅;
     volume_history := ∅;
     depeg_threshold := default default_depeg_threshold cfg_depeg;
     price_change_threshold := default default_price_change_threshold cfg_price;
     volume_spike_threshold := default default_volume_spike_threshold cfg_volume;
     alert_cooldown := ∅;
     cooldown_duration := ten_minutes |}.

Definition set_active_alerts (d : list (string * Alert)) (m : AlertManager) :=
  mkAlertManager d (alert_callbacks m) (price_history m) (volume_history m)
    (depeg_threshold m) (price_change_threshold m) (volume_spike_threshold m)
    (alert_cooldown m) (cooldown_duration m).

Definition set_alert_callbacks (l : list nat) (m : AlertManager) :=
  mkAlertManager (active_alerts m) l (price_history m) (volume_history m)
    (depeg_threshold m) (price_change_threshold m) (volume_spike_threshold m)
    (alert_cooldown m) (cooldown_duration m).

Definition set_price_history (h : gmap string (list Sample)) (m : AlertManager) :=
  mkAlertManager (active_alerts m) (alert_callbacks m) h (volume_history m)
    (depeg_threshold m) (price_change_threshold m) (volume_spike_threshold m)
    (alert_cooldown m) (cooldown_duration m).

Definition set_volume_history (h : gmap string (list Sample)) (m : AlertManager) :=
  mkAlertManager (active_alerts m) (alert_callbacks m) (price_history m) h
    (depeg_threshold m) (price_change_threshold m) (volume_spike_threshold m)
    (alert_cooldown m) (cooldown_duration m).

Definition set_alert_cooldown (c : gmap string Z) (m : AlertManager) :=
  mkAlertManager (active_alerts m) (alert_callbacks m) (price_history m)
    (volume_history m) (depeg_threshold m) (price_change_threshold m)
    (volume_spike_threshold m) c (cooldown_duration m).

(** [AlertSeverity.value]. *)
Definition severity_value (sv : AlertSeverity) : string :=
  match sv with
  | LOW => "low" | MEDIUM => "medium" | HIGH => "high" | CRITICAL => "critical"
  end.

(** Modelled from the spec: [Alert.resolve] (declared in
    [core/models.py]) sets [resolved] and stamps [resolved_at]. *)
Definition alert_resolve (now : Z) (a : Alert) : Alert :=
  mkAlert (alert_id a) (alert_timestamp a) (alert_event_type a)
    (alert_severity a) (alert_title a) (alert_detail a) true (Some now).

(** The companion token and pool that [_check_stablecoin_depeg] builds. *)
Definition tether : Token :=
  mkToken "USDT" "0xdac17f958d2ee523a2206206994597c13d831ec7" 6%Z "Tether USD" None.
Definition mock_pool : string := "0x3416cf6c708da44db2624d63ea0aaef7113527c6".

Definition stablecoins : list string := ["USDC"; "USDT"; "DAI"; "FRAX"].

(** [x in xs] for a list of strings. *)
Definition str_in (x : string) (xs : list string) : bool :=
  existsb (String.eqb x) xs.

Section Manager.
Variable O : Oracles.

(** [datetime.utcnow()]. *)
Definition utcnow : M Z :=
  fun s => (Normal (utcnow_at O (clock_reads s)),
            mkSt (self s) (S (clock_reads s)) (uuid_draws s) (trace s)).

(** [str(uuid.uuid4())]. *)
Definition uuid4 : M string :=
  fun s => (Normal (uuid4_at O (uuid_draws s)),
            mkSt (self s) (clock_reads s) (S (uuid_draws s)) (trace s)).

(** [self.db_manager.insert_alert(alert)]. *)
Definition insert_alert (a : Alert) : M unit :=
  tr <- get_trace ;;
  if insert_alert_raises O tr a
  then emit_io (DbInsertAlert a true) ;;
       raise (if sink_escapes O tr a then SinkBaseException else SinkError)
  else emit_io (DbInsertAlert a false).

(** [await callback(alert)]. *)
Definition call_callback (cb : nat) (a : Alert) : M unit :=
  tr <- get_trace ;;
  if callback_raises O cb tr a
  then emit_io (CallbackCall cb a true) ;;
       raise (if callback_escapes O cb tr a
              then CallbackBaseException cb else CallbackError cb)
  else emit_io (CallbackCall cb a false).

Definition add_alert_callback (callback : nat) : M unit :=
  m <- get_self ;;
  set_self (set_alert_callbacks (alert_callbacks m ++ [callback]) m).

(** [self.volume_history[key]] and [self.price_history[key]] on a
    [defaultdict]: a missing key is first bound to an empty deque. *)
Definition volume_history_getitem (key : string) : M (list Sample) :=
  m <- get_self ;;
  match volume_history m !! key with
  | Some d => ret d
  | None => set_self (set_volume_history (<[key := []]> (volume_history m)) m) ;;
            ret []
  end.

Definition price_history_getitem (key : string) : M (list Sample) :=
  m <- get_self ;;
  match price_history m !! key with
  | Some d => ret d
  | None => set_self (set_price_history (<[key := []]> (price_history m)) m) ;;
            ret []
  end.

Definition _is_on_cooldown (key : string) : M bool :=
  m <- get_self ;;
  match alert_cooldown m !! key with
  | None => ret false
  | Some fired =>
      now <- utcnow ;;
      ret (now - fired <? cooldown_duration m)%Z
  end.

(** [self.alert_cooldown[key] = datetime.utcnow()]. *)
Definition mark_cooldown (key : string) : M unit :=
  now <- utcnow ;;
  m <- get_self ;;
  set_self (set_alert_cooldown (<[key := now]> (alert_cooldown m)) m).

Definition _emit_alert (alert : Alert) : M unit :=
  m <- get_self ;;
  set_self (set_active_alerts
              (PyDict.set (alert_id alert) alert (active_alerts m)) m) ;;
  insert_alert alert ;;
  m <- get_self ;;
  for_each (alert_callbacks m) (fun callback =>
    try_except (call_callback callback alert)
               (fun _ => logger_error "Error in alert callback")) ;;
  logger_info ("Alert generated: " +:+ alert_title alert +:+ " (" +:+
               severity_value (alert_severity alert) +:+ ")").

Definition _check_volume_spike (pair : TradingPair) (current_volume : F64)
  : M unit :=
  let pair_key := pair_name pair +:+ "_" +:+ pool_address pair in
  volume_data <- volume_history_getitem pair_key ;;
  if (length volume_data <? 10)%nat then ret tt else
  let recent_volumes :=
    map sample_value (py_slice (-10) (-1) volume_data) in
  avg_volume <- fl_div (py_sum recent_volumes)
                       (Fin (inject_Z (Z.of_nat (length recent_volumes)))) ;;
  m <- get_self ;;
  if fl_gtb avg_volume (Fin 0)
     && fl_gtb current_volume
               (fl_mul avg_volume (Fin (volume_spike_threshold m)))
  then
    let cooldown_key := "volume_spike_" +:+ pool_address pair in
    on <- _is_on_cooldown cooldown_key ;;
    if on then ret tt else
    spike_multiplier <- fl_div current_volume avg_volume ;;
    let severity :=
      if fl_gtb spike_multiplier (Fin 5) then HIGH else MEDIUM in
    id <- uuid4 ;;
    timestamp <- utcnow ;;
    let alert :=
      mkAlert id timestamp VOLUME_SPIKE severity
        ("Volume Spike Alert: " +:+ pair_name pair)
        (VolumeDetail pair current_volume avg_volume spike_multiplier)
        false None in
    _emit_alert alert ;;
    mark_cooldown cooldown_key
  else ret tt.

Definition _check_price_movement (swap_event : SwapEvent) : M unit :=
  ret tt.

Definition _process_swap_event (event : SwapEvent) : M unit :=
  let pair_key :=
    pair_name (swap_pair event) +:+ "_" +:+ pool_address (swap_pair event) in
  let volume_usd :=
    fl_mul (Fin (amount_in event))
           (Fin (py_or (current_price (token_in event)) 1)) in
  d <- volume_history_getitem pair_key ;;
  m <- get_self ;;
  set_self (set_volume_history
              (<[pair_key :=
                   deque_append 50 (mkSample (swap_timestamp event) volume_usd) d]>
                 (volume_history m)) m) ;;
  _check_volume_spike (swap_pair event) volume_usd ;;
  if Qgtb (price event) 0%Q then _check_price_movement event else ret tt.

Definition _process_liquidity_event (event : LiquidityEvent) : M unit :=
  match liq_event_type event with
  | LIQUIDITY_REMOVE =>
      let liquidity_usd := Qabs (liquidity_delta event) in
      if Qgtb liquidity_usd 1000000%Q then
        id <- uuid4 ;;
        let alert :=
          mkAlert id (liq_timestamp event) LIQUIDITY_REMOVE HIGH
            ("Large Liquidity Removal: " +:+ pair_name (liq_pair event))
            (PlainAlert
               [("pair_name", DStr (pair_name (liq_pair event)));
                ("pool_address", DStr (pool_address (liq_pair event)));
                ("liquidity_removed", DNum liquidity_usd);
                ("provider", DStr (provider event))])
            false None in
        _emit_alert alert
      else ret tt
  | _ => ret tt
  end.

Definition _check_stablecoin_depeg (price_data : PriceData) : M unit :=
  let expected_price : Q := 1%Q in
  let actual_price := price_usd price_data in
  deviation <- py_div (Qabs (actual_price - expected_price)) expected_price ;;
  m <- get_self ;;
  if Qgtb deviation (depeg_threshold m) then
    let cooldown_key := "depeg_" +:+ symbol (pd_token price_data) in
    on <- _is_on_cooldown cooldown_key ;;
    if on then ret tt else
    let severity :=
      if Qgtb deviation (20 # 100)%Q then CRITICAL
      else if Qgtb deviation (10 # 100)%Q then HIGH
      else MEDIUM in
    let relevant_pair :=
      if String.eqb (symbol (pd_token price_data)) "USDC"
      then Some (mkTradingPair (pd_token price_data) tether mock_pool
                               (1 # 10000)%Q)
      else None in
    match relevant_pair with
    | Some the_pair =>
        id <- uuid4 ;;
        let alert :=
          mkAlert id (pd_timestamp price_data) DEPEG_ALERT severity
            ("Token Depeg Alert: " +:+ symbol (pd_token price_data))
            (DepegDetail (pd_token price_data) expected_price actual_price
                         (deviation * 100)%Q the_pair)
            false None in
        _emit_alert alert ;;
        mark_cooldown cooldown_key
    | None => ret tt
    end
  else ret tt.

Definition _process_price_data (price_data : PriceData) : M unit :=
  let token_symbol := symbol (pd_token price_data) in
  d <- price_history_getitem token_symbol ;;
  m <- get_self ;;
  set_self (set_price_history
              (<[token_symbol :=
                   deque_append 100
                     (mkSample (pd_timestamp price_data)
                               (Fin (price_usd price_data))) d]>
                 (price_history m)) m) ;;
  (if str_in token_symbol stablecoins
   then _check_stablecoin_depeg price_data
   else ret tt) ;;
  m <- get_self ;;
  match price_change_24h price_data with
  | Some change =>
      if Qtruthy change
         && Qgtb (Qabs change) (price_change_threshold m * 100)%Q
      then
        let severity := if Qgtb (Qabs change) 20%Q then HIGH else MEDIUM in
        id <- uuid4 ;;
        let alert :=
          mkAlert id (pd_timestamp price_data) PRICE_CHANGE severity
            ("Significant Price Change: " +:+ token_symbol)
            (PlainAlert
               [("token_symbol", DStr token_symbol);
                ("price_change_24h", DNum change);
                ("current_price", DNum (price_usd price_data));
                ("volume_24h",
                 match volume_24h price_data with
                 | Some v => DNum v | None => DNone end)])
            false None in
        _emit_alert alert
      else ret tt
  | None => ret tt
  end.

(** The body of the [try] block of [process_event]: the [isinstance]
    chain. *)
Definition dispatch (event : Event) : M unit :=
  match event with
  | EvSwap e => _process_swap_event e
  | EvLiquidity e => _process_liquidity_event e
  | EvPrice e => _process_price_data e
  | EvOther _ => ret tt
  end.

Definition process_event (event : Event) : M unit :=
  try_except (dispatch event)
    (fun _ => logger_error "Error processing event for alerts").

Definition resolve_alert (id : string) : M unit :=
  m <- get_self ;;
  match PyDict.get id (active_alerts m) with
  | Some alert =>
      now <- utcnow ;;
      let alert' := alert_resolve now alert in
      set_self (set_active_alerts
                  (PyDict.set id alert' (active_alerts m)) m) ;;
      insert_alert alert' ;;
      m <- get_self ;;
      set_self (set_active_alerts (PyDict.del id (active_alerts m)) m) ;;
      logger_info ("Alert resolved: " +:+ alert_title alert')
  | None => ret tt
  end.

Definition get_active_alerts : M (list Alert) :=
  m <- get_self ;;
  ret (PyDict.values (active_alerts m)).

(** Feeding a sequence of events to [process_event], one after the
    other, as the coordinator does. *)
Fixpoint run_events (events : list Event) (s : St) : St :=
  match events with
  | [] => s
  | ev :: rest => run_events rest (snd (process_event ev s))
  end.

End Manager.

(** ** Observations on traces and states *)

(** The alerts handed to the persistence sink, in order.  Within
    [process_event] the sink is only reached from [_emit_alert], so on
    such a trace these are the alerts emitted. *)
Definition emitted (t : list IO) : list Alert :=
  omap (fun io => match io with DbInsertAlert a _ => Some a | _ => None end) t.





(** What was appended to the trace between two states. *)
Definition new_io (s s' : St) : list IO := drop (length (trace s)) (trace s').

Definition is_depeg (a : Alert) : bool :=
  match alert_event_type a with DEPEG_ALERT => true | _ => false end.

(** The contents of a window of a [defaultdict]: a missing key reads as
    an empty deque. *)
Definition window (h : gmap string (list Sample)) (key : string) : list Sample :=
  default [] (h !! key).

(** The key under which a pair's volume window is kept. *)
Definition pair_key (p : TradingPair) : string :=
  pair_name p +:+ "_" +:+ pool_address p.

(** The volume recorded for a swap. *)
Definition volume_usd (e : SwapEvent) : F64 :=
  fl_mul (Fin (amount_in e)) (Fin (py_or (current_price (token_in e)) 1)).

(** The depeg rule's measure of a price update. *)
Definition deviation (pd : PriceData) : Q := (Qabs (price_usd pd - 1) / 1)%Q.

(** A key is off cooldown when it was never fired, or when the reading
    the check is about to take is at least the cooldown duration later
    than the recorded firing. *)
Definition off_cooldown (O : Oracles) (s : St) (key : string) : Prop :=
  match alert_cooldown (self s) !! key with
  | None => True
  | Some fired =>
      (cooldown_duration (self s) <= utcnow_at O (clock_reads s) - fired)%Z
  end.

(** A key is on cooldown when a firing is recorded and the reading the
    check is about to take is less than the cooldown duration later. *)
Definition on_cooldown (O : Oracles) (s : St) (key : string) : Prop :=
  exists fired,
    alert_cooldown (self s) !! key = Some fired
    /\ (utcnow_at O (clock_reads s) - fired < cooldown_duration (self s))%Z.

(** Number of clock readings a cooldown check takes. *)
Definition check_reads (s : St) (key : string) : nat :=
  match alert_cooldown (self s) !! key with None => 0 | Some _ => 1 end.

(** ** Auxiliary functions for the statements

    What the code builds or reaches at a given point, named so that the
    statements can refer to it; the equations of the rules relate each
    of them to the code. *)

(** The alert objects the rules construct, as functions of what they
    are built from. *)

Definition liquidity_alert (id : string) (event : LiquidityEvent) : Alert :=
  mkAlert id (liq_timestamp event) LIQUIDITY_REMOVE HIGH
    ("Large Liquidity Removal: " +:+ pair_name (liq_pair event))
    (PlainAlert
       [("pair_name", DStr (pair_name (liq_pair event)));
        ("pool_address", DStr (pool_address (liq_pair event)));
        ("liquidity_removed", DNum (Qabs (liquidity_delta event)));
        ("provider", DStr (provider event))])
    false None.

Definition price_change_alert (id : string) (price_data : PriceData)
  (change : Q) : Alert :=
  mkAlert id (pd_timestamp price_data) PRICE_CHANGE
    (if Qgtb (Qabs change) 20%Q then HIGH else MEDIUM)
    ("Significant Price Change: " +:+ symbol (pd_token price_data))
    (PlainAlert
       [("token_symbol", DStr (symbol (pd_token price_data)));
        ("price_change_24h", DNum change);
        ("current_price", DNum (price_usd price_data));
        ("volume_24h",
         match volume_24h price_data with
         | Some v => DNum v | None => DNone end)])
    false None.

(** The severity ladder of the depeg rule. *)
Definition depeg_severity (dev : Q) : AlertSeverity :=
  if Qgtb dev (20 # 100)%Q then CRITICAL
  else if Qgtb dev (10 # 100)%Q then HIGH
  else MEDIUM.

(** The companion pair for display context: only built for [USDC]. *)
Definition relevant_pair (price_data : PriceData) : option TradingPair :=
  if String.eqb (symbol (pd_token price_data)) "USDC"
  then Some (mkTradingPair (pd_token price_data) tether mock_pool
                           (1 # 10000)%Q)
  else None.

Definition depeg_alert (id : string) (price_data : PriceData)
  (the_pair : TradingPair) : Alert :=
  mkAlert id (pd_timestamp price_data) DEPEG_ALERT
    (depeg_severity (deviation price_data))
    ("Token Depeg Alert: " +:+ symbol (pd_token price_data))
    (DepegDetail (pd_token price_data) 1%Q (price_usd price_data)
                 (deviation price_data * 100)%Q the_pair)
    false None.

Definition volume_alert (id : string) (timestamp : Z) (pair : TradingPair)
  (current_volume avg_volume : F64) : Alert :=
  mkAlert id timestamp VOLUME_SPIKE
    (if fl_gtb (fl_quot current_volume avg_volume) (Fin 5)
     then HIGH else MEDIUM)
    ("Volume Spike Alert: " +:+ pair_name pair)
    (VolumeDetail pair current_volume avg_volume
                  (fl_quot current_volume avg_volume))
    false None.

(** The depeg cooldown key of a token symbol. *)
Definition depeg_key (sym : string) : string := "depeg_" +:+ sym.

(** The volume-spike cooldown key of a pool. *)
Definition volume_spike_key (p : TradingPair) : string :=
  "volume_spike_" +:+ pool_address p.

(** The average the volume-spike rule compares against: the mean of the
    nine samples before the last one of the window. *)
Definition recent_average (w : list Sample) : F64 :=
  fl_quot (py_sum (map sample_value (take 9 (drop (length w - 10) w))))
          (Fin 9).

Definition with_clock (s : St) (n : nat) : St :=
  mkSt (self s) n (uuid_draws s) (trace s).

Definition with_uuid (s : St) (n : nat) : St :=
  mkSt (self s) (clock_reads s) n (trace s).

Definition with_self (s : St) (m : AlertManager) : St :=
  mkSt m (clock_reads s) (uuid_draws s) (trace s).

(** Pushing [xs] one by one. *)
Definition push_all {A} (maxlen : nat) (xs d : list A) : list A :=
  fold_left (fun w x => deque_append maxlen x w) xs d.

Definition callback_error_msg : string := "Error in alert callback".

(** What one callback contributes to the trace. *)
Definition callback_step (O : Oracles) (a : Alert) (cb : nat) (tr : list IO)
  : list IO :=
  if callback_raises O cb tr a
  then [CallbackCall cb a true; LogError callback_error_msg]
  else [CallbackCall cb a false].

(** What the whole loop contributes when it runs to its end, given the
    trace at its start. *)
Fixpoint callback_io (O : Oracles) (a : Alert) (cbs : list nat) (tr : list IO)
  : list IO :=
  match cbs with
  | [] => []
  | cb :: rest =>
      callback_step O a cb tr
        ++ callback_io O a rest (tr ++ callback_step O a cb tr)
  end.

(** The loop in general: what it contributes to the trace and, when a
    callback raised outside class [Exception], which one; the loop ends
    there. *)
Fixpoint callback_loop (O : Oracles) (a : Alert) (cbs : list nat)
  (tr : list IO) : list IO * option nat :=
  match cbs with
  | [] => ([], None)
  | cb :: rest =>
      if callback_raises O cb tr a && callback_escapes O cb tr a
      then ([CallbackCall cb a true], Some cb)
      else
        let step := callback_step O a cb tr in
        let (io, stopped) := callback_loop O a rest (tr ++ step) in
        (step ++ io, stopped)
  end.

(** What the sink raises when it raises. *)
Definition sink_exn (O : Oracles) (tr : list IO) (a : Alert) : PyExn :=
  if sink_escapes O tr a then SinkBaseException else SinkError.

(** No callback raises outside class [Exception] for this alert. *)
Definition callbacks_stay_in_class (O : Oracles) (a : Alert) : Prop :=
  forall cb tr, callback_raises O cb tr a = true ->
                callback_escapes O cb tr a = false.

(** Neither the sink nor any callback ever raises outside class
    [Exception]. *)
Definition nothing_escapes (O : Oracles) : Prop :=
  (forall tr a, insert_alert_raises O tr a = true -> sink_escapes O tr a = false)
  /\ (forall a, callbacks_stay_in_class O a).

Definition with_trace (s : St) (extra : list IO) : St :=
  mkSt (self s) (clock_reads s) (uuid_draws s) (trace s ++ extra).

Definition alert_generated_msg (a : Alert) : string :=
  "Alert generated: " +:+ alert_title a +:+ " (" +:+
  severity_value (alert_severity a) +:+ ")".

(** The trace of an emission that the sink accepted. *)
Definition emission_io (O : Oracles) (a : Alert) (s : St) : list IO :=
  DbInsertAlert a false
    :: callback_io O a (alert_callbacks (self s))
         (trace s ++ [DbInsertAlert a false])
    ++ [LogInfo (alert_generated_msg a)].

(** The state right after [self.active_alerts[alert.id] = alert]. *)
Definition stored (a : Alert) (s : St) : St :=
  mkSt (set_active_alerts
          (PyDict.set (alert_id a) a (active_alerts (self s))) (self s))
       (clock_reads s) (uuid_draws s) (trace s).

(** The state after a price update has been recorded in its window. *)
Definition price_pushed (pd : PriceData) (s : St) : St :=
  let sym := symbol (pd_token pd) in
  let h := price_history (self s) in
  with_self s
    (set_price_history
       (<[sym := deque_append 100
                   (mkSample (pd_timestamp pd) (Fin (price_usd pd)))
                   (window h sym)]> h)
       (self s)).

(** The state after a swap's volume has been recorded in its window. *)
Definition volume_pushed (e : SwapEvent) (s : St) : St :=
  let key := pair_key (swap_pair e) in
  let h := volume_history (self s) in
  with_self s
    (set_volume_history
       (<[key := deque_append 50 (mkSample (swap_timestamp e) (volume_usd e))
                              (window h key)]> h)
       (self s)).

(** The two rules a price update goes through after it is recorded. *)
Definition depeg_part (O : Oracles) (pd : PriceData) : M unit :=
  if str_in (symbol (pd_token pd)) stablecoins
  then _check_stablecoin_depeg O pd
  else ret tt.

Definition price_change_part (O : Oracles) (pd : PriceData) : M unit :=
  m <- get_self ;;
  match price_change_24h pd with
  | Some change =>
      if Qtruthy change
         && Qgtb (Qabs change) (price_change_threshold m * 100)%Q
      then
        id <- uuid4 O ;;
        _emit_alert O (price_change_alert id pd change)
      else ret tt
  | None => ret tt
  end.

Definition process_error_msg : string := "Error processing event for alerts".

(** [except Exception as e: logger.error(...)] of [process_event]. *)
Definition log_and_continue : PyExn -> M unit :=
  fun _ => logger_error process_error_msg.

(** The state in which a cooldown firing has been recorded. *)
Definition marked (O : Oracles) (key : string) (s : St) : St :=
  mkSt (set_alert_cooldown
          (<[key := utcnow_at O (clock_reads s)]> (alert_cooldown (self s)))
          (self s))
       (S (clock_reads s)) (uuid_draws s) (trace s).

(** Two states between which only alerts were emitted: configuration,
    callbacks, windows, cooldowns and the clock are the same, and the
    trace was extended. *)
Record same_rules (s s' : St) : Prop := mk_same_rules {
  sr_cooldown : alert_cooldown (self s') = alert_cooldown (self s);
  sr_duration : cooldown_duration (self s') = cooldown_duration (self s);
  sr_depeg : depeg_threshold (self s') = depeg_threshold (self s);
  sr_price : price_change_threshold (self s') = price_change_threshold (self s);
  sr_volume : volume_spike_threshold (self s') = volume_spike_threshold (self s);
  sr_callbacks : alert_callbacks (self s') = alert_callbacks (self s);
  sr_price_history : price_history (self s') = price_history (self s);
  sr_volume_history : volume_history (self s') = volume_history (self s);
  sr_clock : clock_reads s' = clock_reads s;
  sr_trace : trace s' = trace s ++ new_io s s'
}.

(** The companion pair built for a USDC update. *)
Definition usdc_pair (pd : PriceData) : TradingPair :=
  mkTradingPair (pd_token pd) tether mock_pool (1 # 10000)%Q.

(** The state after the USDC cooldown check found the key off cooldown
    and an id was drawn. *)
Definition depeg_ready (s : St) : St :=
  with_uuid (with_clock s (clock_reads s + check_reads s (depeg_key "USDC")))
            (S (uuid_draws s)).

(** The depeg alert a USDC update gives rise to in state [s]. *)
Definition usdc_depeg_alert (O : Oracles) (pd : PriceData) (s : St) : Alert :=
  depeg_alert (uuid4_at O (uuid_draws s)) pd (usdc_pair pd).


Definition alert_resolved_msg (a : Alert) : string :=
  "Alert resolved: " +:+ alert_title a.

(** The manager in which the active alerts are [d]. *)
Definition with_active (s : St) (d : list (string * Alert)) : St :=
  with_self s (set_active_alerts d (self s)).

(** The trigger of the volume-spike rule, on the window that already holds
    the current sample, for the current volume and the threshold. *)
Definition spike_condition (w : list Sample) (current : F64) (thr : Q)
  : bool :=
  (10 <=? length w)%nat
  && (fl_gtb (recent_average w) (Fin 0)
      && fl_gtb current (fl_mul (recent_average w) (Fin thr))).

(** The window of a pair right after a swap has been recorded. *)
Definition window_after_swap (e : SwapEvent) (s : St) : list Sample :=
  window (volume_history (self (volume_pushed e s))) (pair_key (swap_pair e)).


(** The samples that a sequence of events contributes to one volume
    window, and to one price window. *)
Definition volume_samples (key : string) (events : list Event) : list Sample :=
  omap (fun ev =>
          match ev with
          | EvSwap e =>
              if String.eqb (pair_key (swap_pair e)) key
              then Some (mkSample (swap_timestamp e) (volume_usd e))
              else None
          | _ => None
          end) events.

Definition price_samples (key : string) (events : list Event) : list Sample :=
  omap (fun ev =>
          match ev with
          | EvPrice pd =>
              if String.eqb (symbol (pd_token pd)) key
              then Some (mkSample (pd_timestamp pd) (Fin (price_usd pd)))
              else None
          | _ => None
          end) events.

(** The most recent [n] items of a sequence. *)
Definition last_n {A} (n : nat) (l : list A) : list A :=
  drop (length l - n) l.

(** Two states with the same rolling windows. *)
Definition same_windows (s s' : St) : Prop :=
  price_history (self s') = price_history (self s)
  /\ volume_history (self s') = volume_history (self s).

(** A property of the dictionary of active alerts, as a state
    invariant, and what it means for a computation to maintain it. *)
Definition holds (P : list (string * Alert) -> Prop) (s : St) : Prop :=
  P (active_alerts (self s)).

Definition keeps (P : list (string * Alert) -> Prop) {A} (c : M A) : Prop :=
  forall s, holds P s -> holds P (snd (c s)).

(** A computation only ever appends to the trace. *)
Definition extends_trace {A} (c : M A) : Prop :=
  forall s, exists t, trace (snd (c s)) = trace s ++ t.

(** Whatever a computation raises is an instance of [Exception]. *)
Definition contained {A} (c : M A) : Prop :=
  forall s e s', c s = (Raised e, s') -> is_Exception e = true.

(** The dictionary of active alerts is well formed: no key occurs twice. *)
Definition well_formed (s : St) : Prop :=
  holds (fun d => NoDup (PyDict.keys d)) s.

(** ** Sample inputs *)

(** A clock that advances one minute per reading, ids [alert-0],
    [alert-1], ..., a sink that accepts every write, and callback 0
    always raising, inside class [Exception]. *)
Definition sample_oracles : Oracles :=
  mkOracles (fun n => (Z.of_nat n * 60000000)%Z)
            (fun n => "alert-" +:+ pretty n)
            (fun _ _ => false)
            (fun cb _ _ => Nat.eqb cb 0)
            (fun _ _ => false)
            (fun _ _ _ => false).


(** The same, with a sink that rejects every write. *)
Definition failing_sink_oracles : Oracles :=
  mkOracles (fun n => (Z.of_nat n * 60000000)%Z)
            (fun n => "alert-" +:+ pretty n)
            (fun _ _ => true)
            (fun cb _ _ => Nat.eqb cb 0)
            (fun _ _ => false)
            (fun _ _ _ => false).

(** The same as the first, but what callback 0 raises is a cancellation
    ([asyncio.CancelledError]), which is not an instance of
    [Exception]. *)
Definition cancelling_oracles : Oracles :=
  mkOracles (fun n => (Z.of_nat n * 60000000)%Z)
            (fun n => "alert-" +:+ pretty n)
            (fun _ _ => false)
            (fun cb _ _ => Nat.eqb cb 0)
            (fun _ _ => false)
            (fun cb _ _ => Nat.eqb cb 0).

(** A fresh manager with the default thresholds. *)
Definition fresh : St := mkSt (init None None None) 0 0 [].

Definition usdc : Token :=
  mkToken "USDC" "0xa0b86a33e6441b2c30b7ade5c3e77eeddbfe1fd8" 6%Z "USD Coin"
          (Some 1%Q).
Definition usdt : Token :=
  mkToken "USDT" "0xdac17f958d2ee523a2206206994597c13d831ec7" 6%Z "Tether USD"
          (Some 1%Q).
Definition weth : Token :=
  mkToken "WETH" "0xc02aaa39b223fe8d0a0e5c4f27ead9083c756cc2" 18%Z
          "Wrapped Ether" None.
Definition usdc_weth : TradingPair :=
  mkTradingPair usdc weth "0x88e6a0c2ddd26feeb64f039a2c41296fcb3f5640"
                (5 # 10000)%Q.

Definition sample_removal (delta : Q) : LiquidityEvent :=
  mkLiquidityEvent 1000%Z usdc_weth LIQUIDITY_REMOVE delta "0xprovider".

Definition sample_price (t : Token) (p : Q) : PriceData :=
  mkPriceData 1000%Z t p None None.

Definition sample_swap (amount : Q) : SwapEvent :=
  mkSwapEvent 1000%Z usdc_weth amount 0%Q usdc weth 2500%Q "0x123456789abcdef"
              18500000%Z.


(** A manager holding one active alert, after a large removal. *)
Definition one_active : St :=
  snd (process_event sample_oracles
         (EvLiquidity (sample_removal (-(1500000))%Q)) fresh).
(** * Properties *)

(** ** Arithmetic of the comparisons *)

Lemma Qgtb_true (x y : Q) : Qgtb x y = true <-> (y < x)%Q.
Proof.
  unfold Qgtb. rewrite negb_true_iff.
  destruct (Qle_bool x y) eqn:E.
  - apply Qle_bool_iff in E. split; [discriminate | intros H].
    exfalso. apply (Qlt_not_le _ _ H E).
  - split; [intros _ | reflexivity].
    apply Qnot_le_lt. intros H. apply Qle_bool_iff in H. congruence.
Qed.

Lemma Qgtb_false (x y : Q) : Qgtb x y = false <-> (x <= y)%Q.
Proof.
  unfold Qgtb. rewrite negb_false_iff. apply Qle_bool_iff.
Qed.

Lemma Qeq_bool_false (x y : Q) : Qeq_bool x y = false <-> ~ (x == y)%Q.
Proof.
  split.
  - intros E H. apply Qeq_bool_iff in H. congruence.
  - intros H. destruct (Qeq_bool x y) eqn:E; [|reflexivity].
    apply Qeq_bool_iff in E. contradiction.
Qed.

(** ** Binary64 rounding *)
















(** *** Known values

    The rounding on numbers whose doubles are well known: 0.1, the sum
    0.1 + 0.2 = 0.30000000000000004, nine times 0.1 added up one by one
    (0.8999999999999999) and its ninth (0.09999999999999999), the
    quotient 0.3 / 0.1 = 2.9999999999999996, the largest double and the
    first number that overflows, and the tie below the least double. *)

Example round64_tenth :
  round64 (1 # 10) = Fin (3602879701896397 # 36028797018963968).
Proof. vm_compute. reflexivity. Qed.

Example tenth_plus_fifth :
  fl_add (round64 (1 # 10)) (round64 (2 # 10))
  = Fin (1351079888211149 # 4503599627370496).
Proof. vm_compute. reflexivity. Qed.

Example nine_tenths :
  py_sum (repeat (round64 (1 # 10)) 9)
  = Fin (2026619832316723 # 2251799813685248).
Proof. vm_compute. reflexivity. Qed.

Example mean_of_nine_tenths :
  fl_quot (py_sum (repeat (round64 (1 # 10)) 9)) (Fin 9)
  = Fin (7205759403792793 # 72057594037927936).
Proof. vm_compute. reflexivity. Qed.

Example three_tenths_by_tenth :
  fl_quot (round64 (3 # 10)) (round64 (1 # 10))
  = Fin (6755399441055743 # 2251799813685248).
Proof. vm_compute. reflexivity. Qed.

Example largest_double :
  round64 (2 ^ 1024 - 2 ^ 971) = Fin (Qred (2 ^ 1024 - 2 ^ 971))
  /\ round64 (2 ^ 1024 - 2 ^ 970) = PosInf
  /\ fl_add (Fin (2 ^ 1023)) (Fin (2 ^ 1023)) = PosInf.
Proof. repeat split; vm_compute; reflexivity. Qed.

Example least_double :
  round64 (2 ^ (-1075)) = Fin 0
  /\ round64 (3 * 2 ^ (-1075)) = Fin (Qred (2 ^ (-1073)))
  /\ round64 (2 ^ (-1074)) = Fin (Qred (2 ^ (-1074))).
Proof. repeat split; vm_compute; reflexivity. Qed.

(** ** Slices and bounded deques *)

Lemma py_slice_last_ten {A} (l : list A) :
  10 <= length l ->
  py_slice (-10) (-1) l = take 9 (drop (length l - 10) l).
Proof.
  intros H. unfold py_slice, slice_bound. simpl.
  replace (Z.to_nat (Z.min (Z.max (-10 + Z.of_nat (length l)) 0)
                           (Z.of_nat (length l))))
    with (length l - 10) by lia.
  replace (Z.to_nat (Z.min (Z.max (-1 + Z.of_nat (length l)) 0)
                           (Z.of_nat (length l))))
    with (length l - 1) by lia.
  f_equal. lia.
Qed.

Lemma deque_append_length {A} (maxlen : nat) (x : A) (d : list A) :
  length d <= maxlen -> 1 <= maxlen ->
  length (deque_append maxlen x d) <= maxlen.
Proof.
  intros H H1. unfold deque_append.
  destruct (maxlen <? length (d ++ [x]))%nat eqn:E.
  - rewrite length_drop, length_app. simpl. lia.
  - apply Nat.ltb_ge in E. exact E.
Qed.

(** A bounded deque holds the most recent [maxlen] items of everything
    it was given, oldest first. *)
Lemma deque_append_suffix {A} (maxlen : nat) (x : A) (d : list A) :
  length d <= maxlen ->
  deque_append maxlen x d = drop (length (d ++ [x]) - maxlen) (d ++ [x]).
Proof.
  intros H. unfold deque_append.
  destruct (maxlen <? length (d ++ [x]))%nat eqn:E.
  - apply Nat.ltb_lt in E. rewrite length_app in *. simpl in *.
    replace (length d + 1 - maxlen) with 1 by lia. reflexivity.
  - apply Nat.ltb_ge in E.
    replace (length (d ++ [x]) - maxlen) with 0 by lia. reflexivity.
Qed.

Lemma drop_suffix_app {A} (n : nat) (l : list A) (x : A) :
  drop (length (drop (length l - n) l ++ [x]) - n) (drop (length l - n) l ++ [x])
  = drop (length (l ++ [x]) - n) (l ++ [x]).
Proof.
  rewrite !length_app, length_drop. simpl.
  destruct (decide (length l <= n)) as [Hle|Hgt].
  - replace (length l - n) with 0 by lia. rewrite drop_0, Nat.sub_0_r.
    reflexivity.
  - replace (length l - (length l - n) + 1 - n) with 1 by lia.
    replace (length l + 1 - n) with ((length l - n) + 1) by lia.
    rewrite <- drop_drop, (drop_app_le l [x] (length l - n)) by lia.
    reflexivity.
Qed.

Lemma push_all_cons {A} (maxlen : nat) (x : A) (xs d : list A) :
  push_all maxlen (x :: xs) d = push_all maxlen xs (deque_append maxlen x d).
Proof. reflexivity. Qed.

Lemma push_all_suffix {A} (maxlen : nat) (xs d : list A) :
  push_all maxlen xs (drop (length d - maxlen) d)
  = drop (length (d ++ xs) - maxlen) (d ++ xs).
Proof.
  revert d. induction xs as [|x xs IH]; intros d.
  - rewrite app_nil_r. reflexivity.
  - rewrite push_all_cons.
    rewrite deque_append_suffix by (rewrite length_drop; lia).
    rewrite drop_suffix_app, IH, <- app_assoc. reflexivity.
Qed.

(** ** Insertion-ordered dictionaries *)

Module PyDictFacts.
Import PyDict.
Section Facts.
Context {V : Type}.
Implicit Types (d : list (string * V)) (k : string) (v : V).

Lemma get_set_same k v d : get k (set k v d) = Some v.
Proof.
  induction d as [|[k' v'] d IH]; simpl.
  - rewrite String.eqb_refl. reflexivity.
  - destruct (String.eqb k k') eqn:E; simpl; rewrite ?String.eqb_refl, ?E; auto.
Qed.

Lemma get_set_other k k' v d : k <> k' -> get k' (set k v d) = get k' d.
Proof.
  intros Hne. induction d as [|[k0 v0] d IH]; simpl.
  - destruct (String.eqb k' k) eqn:E; [|reflexivity].
    apply String.eqb_eq in E. congruence.
  - destruct (String.eqb k k0) eqn:E; simpl.
    + apply String.eqb_eq in E. subst k0.
      destruct (String.eqb k' k) eqn:E'; [|reflexivity].
      apply String.eqb_eq in E'. congruence.
    + rewrite IH. reflexivity.
Qed.

Lemma get_not_key k d : k ∉ keys d -> get k d = None.
Proof.
  induction d as [|[k' v'] d IH]; simpl; [reflexivity|].
  intros Hk. apply not_elem_of_cons in Hk as [Hne Hk].
  destruct (String.eqb k k') eqn:E; [|auto].
  apply String.eqb_eq in E. congruence.
Qed.

Lemma keys_del_subset k k' d : k' ∈ keys (del k d) -> k' ∈ keys d.
Proof.
  induction d as [|[k0 v0] d IH]; simpl; [auto|].
  destruct (String.eqb k k0); simpl.
  - intros H. apply elem_of_cons. auto.
  - rewrite !elem_of_cons. intros [H|H]; auto.
Qed.

(** Deleting a key of a well-formed dictionary leaves no binding. *)
Lemma get_del_same k d : NoDup (keys d) -> get k (del k d) = None.
Proof.
  induction d as [|[k' v'] d IH]; simpl; [reflexivity|].
  intros Hnd. apply NoDup_cons in Hnd as [Hk' Hnd].
  destruct (String.eqb k k') eqn:E; simpl.
  - apply String.eqb_eq in E. subst k'. apply get_not_key. exact Hk'.
  - rewrite E. auto.
Qed.

Lemma get_del_other k k' d : k <> k' -> get k' (del k d) = get k' d.
Proof.
  intros Hne. induction d as [|[k0 v0] d IH]; simpl; [reflexivity|].
  destruct (String.eqb k k0) eqn:E; simpl.
  - apply String.eqb_eq in E. subst k0.
    destruct (String.eqb k' k) eqn:E'; [|reflexivity].
    apply String.eqb_eq in E'. congruence.
  - rewrite IH. reflexivity.
Qed.

Lemma keys_set k v d :
  keys (set k v d) = if contains k d then keys d else keys d ++ [k].
Proof.
  unfold contains. induction d as [|[k' v'] d IH]; simpl; [reflexivity|].
  destruct (String.eqb k k') eqn:E; simpl.
  - apply String.eqb_eq in E. subst. reflexivity.
  - rewrite IH. destruct (get k d); reflexivity.
Qed.

Lemma get_is_key k v d : get k d = Some v -> k ∈ keys d.
Proof.
  induction d as [|[k' v'] d IH]; simpl; [discriminate|].
  destruct (String.eqb k k') eqn:E.
  - apply String.eqb_eq in E. subst. intros _. apply elem_of_cons. auto.
  - intros H. apply elem_of_cons. auto.
Qed.

Lemma NoDup_keys_set k v d : NoDup (keys d) -> NoDup (keys (set k v d)).
Proof.
  intros Hnd. rewrite keys_set. unfold contains.
  destruct (get k d) eqn:E; [exact Hnd|].
  apply NoDup_app. split; [exact Hnd|]. split.
  - intros x Hx Hx'. apply list_elem_of_singleton in Hx'. subst x.
    clear Hnd. induction d as [|[k' v'] d IH]; simpl in *.
    + inversion Hx.
    + destruct (String.eqb k k') eqn:E'; [discriminate|].
      apply elem_of_cons in Hx as [Hx|Hx]; [|auto].
      subst k'. rewrite String.eqb_refl in E'. discriminate.
  - apply NoDup_singleton.
Qed.

Lemma NoDup_keys_del k d : NoDup (keys d) -> NoDup (keys (del k d)).
Proof.
  induction d as [|[k' v'] d IH]; simpl; [auto|].
  intros Hnd. apply NoDup_cons in Hnd as [Hk' Hnd].
  destruct (String.eqb k k'); simpl; [exact Hnd|].
  apply NoDup_cons. split; [|auto].
  intros H. apply Hk'. eapply keys_del_subset. exact H.
Qed.

(** Deleting removes exactly one entry, and keeps the order of the
    others. *)
Lemma values_del k v d :
  get k d = Some v ->
  exists d1 d2, d = d1 ++ (k, v) :: d2 /\ del k d = d1 ++ d2
                /\ k ∉ keys d1.
Proof.
  induction d as [|[k' v'] d IH]; simpl; [discriminate|].
  destruct (String.eqb k k') eqn:E.
  - apply String.eqb_eq in E. subst k'. intros [= ->].
    exists [], d. repeat split. apply not_elem_of_nil.
  - intros H. destruct (IH H) as (d1 & d2 & -> & Hdel & Hk).
    exists ((k', v') :: d1), d2. rewrite Hdel. repeat split.
    simpl. apply not_elem_of_cons. split; [|exact Hk].
    intros ->. rewrite String.eqb_refl in E. discriminate.
Qed.

(** Assigning to a present key replaces its value in place. *)
Lemma set_at k v v' (d1 d2 : list (string * V)) :
  k ∉ keys d1 -> set k v' (d1 ++ (k, v) :: d2) = d1 ++ (k, v') :: d2.
Proof.
  induction d1 as [|[k0 v0] d1 IH]; simpl.
  - intros _. rewrite String.eqb_refl. reflexivity.
  - intros Hk. apply not_elem_of_cons in Hk as [Hne Hk].
    destruct (String.eqb k k0) eqn:E.
    + apply String.eqb_eq in E. congruence.
    + rewrite (IH Hk). reflexivity.
Qed.
End Facts.
End PyDictFacts.

(** ** Traces only grow *)

Lemma new_io_app (s s' : St) (t : list IO) :
  trace s' = trace s ++ t -> new_io s s' = t.
Proof. intros H. unfold new_io. rewrite H. apply drop_app_length. Qed.

Lemma new_io_same (s : St) : new_io s s = [].
Proof. unfold new_io. apply drop_all. Qed.

(** ** The callback loop and [_emit_alert] *)

Lemma with_trace_nil (s : St) : with_trace s [] = s.
Proof. destruct s. unfold with_trace. simpl. rewrite app_nil_r. reflexivity. Qed.

Lemma with_trace_app (s : St) (t1 t2 : list IO) :
  with_trace (with_trace s t1) t2 = with_trace s (t1 ++ t2).
Proof. unfold with_trace. simpl. rewrite app_assoc. reflexivity. Qed.

(** One pass through the body of the loop. *)
Lemma callback_body (O : Oracles) (a : Alert) (cb : nat) (s : St) :
  try_except (call_callback O cb a)
    (fun _ => logger_error "Error in alert callback") s
  = if callback_raises O cb (trace s) a && callback_escapes O cb (trace s) a
    then (Raised (CallbackBaseException cb),
          with_trace s [CallbackCall cb a true])
    else (Normal tt, with_trace s (callback_step O a cb (trace s))).
Proof.
  unfold try_except, call_callback, bind, get_trace, callback_step.
  destruct (callback_raises O cb (trace s) a); simpl.
  - destruct (callback_escapes O cb (trace s) a); simpl.
    + reflexivity.
    + unfold logger_error, emit_io, with_trace. simpl.
      rewrite <- app_assoc. reflexivity.
  - reflexivity.
Qed.

(** The loop over the callbacks stops at the first callback that raises
    outside class [Exception], and nowhere else. *)
Lemma for_each_callbacks (O : Oracles) (a : Alert) (cbs : list nat) (s : St) :
  for_each cbs (fun callback =>
      try_except (call_callback O callback a)
                 (fun _ => logger_error "Error in alert callback")) s
  = match callback_loop O a cbs (trace s) with
    | (io, None) => (Normal tt, with_trace s io)
    | (io, Some cb) => (Raised (CallbackBaseException cb), with_trace s io)
    end.
Proof.
  revert s. induction cbs as [|cb cbs IH]; intros s.
  - simpl. rewrite with_trace_nil. reflexivity.
  - simpl for_each. unfold bind at 1. rewrite callback_body.
    cbn [callback_loop].
    destruct (callback_raises O cb (trace s) a
              && callback_escapes O cb (trace s) a); [reflexivity|].
    rewrite IH. cbn [trace with_trace].
    destruct (callback_loop O a cbs (trace s ++ callback_step O a cb (trace s)))
      as [io [stopped|]]; rewrite with_trace_app; reflexivity.
Qed.

Lemma callback_loop_in_class (O : Oracles) (a : Alert) (cbs : list nat)
  (tr : list IO) :
  callbacks_stay_in_class O a ->
  callback_loop O a cbs tr = (callback_io O a cbs tr, None).
Proof.
  intros H. revert tr. induction cbs as [|cb cbs IH]; intros tr; simpl.
  - reflexivity.
  - rewrite IH.
    destruct (callback_raises O cb tr a) eqn:E; [|reflexivity].
    rewrite (H cb tr E). reflexivity.
Qed.

Lemma emitted_app (t1 t2 : list IO) : emitted (t1 ++ t2) = emitted t1 ++ emitted t2.
Proof. apply omap_app. Qed.


Lemma emitted_callback_step O a cb tr : emitted (callback_step O a cb tr) = [].
Proof. unfold callback_step. destruct (callback_raises O cb tr a); reflexivity. Qed.

Lemma emitted_callback_io O a cbs tr : emitted (callback_io O a cbs tr) = [].
Proof.
  revert tr. induction cbs as [|cb cbs IH]; intros tr; simpl; [reflexivity|].
  rewrite emitted_app, IH, emitted_callback_step. reflexivity.
Qed.

Lemma emitted_callback_loop O a cbs tr :
  emitted (fst (callback_loop O a cbs tr)) = [].
Proof.
  revert tr. induction cbs as [|cb cbs IH]; intros tr; simpl; [reflexivity|].
  destruct (callback_raises O cb tr a && callback_escapes O cb tr a);
    [reflexivity|].
  specialize (IH (tr ++ callback_step O a cb tr)).
  destruct (callback_loop O a cbs _) as [io stopped]. cbn [fst] in *.
  rewrite emitted_app, IH, emitted_callback_step. reflexivity.
Qed.



Lemma _emit_alert_eq (O : Oracles) (a : Alert) (s : St) :
  _emit_alert O a s =
  if insert_alert_raises O (trace s) a
  then (Raised (sink_exn O (trace s) a),
        with_trace (stored a s) [DbInsertAlert a true])
  else
    match callback_loop O a (alert_callbacks (self s))
            (trace s ++ [DbInsertAlert a false]) with
    | (io, None) =>
        (Normal tt,
         with_trace (stored a s)
           (DbInsertAlert a false :: io ++ [LogInfo (alert_generated_msg a)]))
    | (io, Some cb) =>
        (Raised (CallbackBaseException cb),
         with_trace (stored a s) (DbInsertAlert a false :: io))
    end.
Proof.
  unfold _emit_alert, insert_alert, get_self, set_self, get_trace, bind.
  simpl.
  destruct (insert_alert_raises O (trace s) a) eqn:E; simpl.
  - reflexivity.
  - rewrite for_each_callbacks. cbn [trace alert_callbacks self
      set_active_alerts].
    destruct (callback_loop O a (alert_callbacks (self s))
                (trace s ++ [DbInsertAlert a false])) as [io [cb|]].
    + unfold with_trace, stored. simpl. rewrite <- !app_assoc. reflexivity.
    + unfold logger_info, emit_io, with_trace, stored. simpl.
      rewrite <- !app_assoc. reflexivity.
Qed.

(** The emission that runs to its end: the write is accepted and no
    callback raises outside class [Exception]. *)
Lemma _emit_alert_completes (O : Oracles) (a : Alert) (s : St) :
  insert_alert_raises O (trace s) a = false ->
  callbacks_stay_in_class O a ->
  _emit_alert O a s
  = (Normal tt, with_trace (stored a s) (emission_io O a s)).
Proof.
  intros Hsink Hcb. rewrite _emit_alert_eq, Hsink.
  rewrite (callback_loop_in_class O a _ _ Hcb). reflexivity.
Qed.

(** Whatever the sink and the callbacks do, an emission stores the alert,
    hands it to the sink once and leaves everything else alone. *)
Lemma _emit_alert_shape (O : Oracles) (a : Alert) (s : St) :
  exists t,
    snd (_emit_alert O a s) = with_trace (stored a s) t
    /\ emitted t = [a].
Proof.
  rewrite _emit_alert_eq.
  destruct (insert_alert_raises O (trace s) a).
  - eexists. split; reflexivity.
  - pose proof (emitted_callback_loop O a (alert_callbacks (self s))
                  (trace s ++ [DbInsertAlert a false])) as He.
    destruct (callback_loop O a _ _) as [io [cb|]]; cbn [fst snd] in *.
    + eexists. split; [reflexivity|].
      change (a :: emitted io = [a]). rewrite He. reflexivity.
    + eexists. split; [reflexivity|].
      change (a :: emitted (io ++ [LogInfo (alert_generated_msg a)]) = [a]).
      rewrite emitted_app, He. reflexivity.
Qed.

(** An emission returns normally only if the sink accepted the write,
    and then it went through all its callbacks. *)
Lemma _emit_alert_normal (O : Oracles) (a : Alert) (s s' : St) :
  _emit_alert O a s = (Normal tt, s') ->
  insert_alert_raises O (trace s) a = false
  /\ s' = with_trace (stored a s) (emission_io O a s).
Proof.
  rewrite _emit_alert_eq.
  destruct (insert_alert_raises O (trace s) a); [discriminate|].
  intros H. split; [reflexivity|].
  assert (Hio : forall cbs tr,
    snd (callback_loop O a cbs tr) = None ->
    fst (callback_loop O a cbs tr) = callback_io O a cbs tr).
  { induction cbs as [|cb cbs IH]; intros tr; simpl; [reflexivity|].
    destruct (callback_raises O cb tr a && callback_escapes O cb tr a);
      [discriminate|].
    specialize (IH (tr ++ callback_step O a cb tr)).
    destruct (callback_loop O a cbs _) as [io stopped]. cbn [fst snd] in *.
    intros Hs. rewrite (IH Hs). reflexivity. }
  specialize (Hio (alert_callbacks (self s)) (trace s ++ [DbInsertAlert a false])).
  destruct (callback_loop O a _ _) as [io [cb|]]; [discriminate|].
  cbn [fst snd] in Hio. rewrite (Hio eq_refl) in H.
  injection H as <-. reflexivity.
Qed.

Lemma emitted_emission_io O a s : emitted (emission_io O a s) = [a].
Proof.
  unfold emission_io. simpl. rewrite emitted_app, emitted_callback_io.
  reflexivity.
Qed.




(** ** Fan-out to the callbacks *)




Lemma log_and_continue_eq (e : PyExn) (s : St) :
  log_and_continue e s = (Normal tt, with_trace s [LogError process_error_msg]).
Proof. reflexivity. Qed.

(** What an emission inside the [try] block of [process_event] leaves
    behind, whatever the sink and the callbacks do. *)
Lemma handled_emission (O : Oracles) (a : Alert) (s : St) :
  exists t,
    snd (try_except (_emit_alert O a) log_and_continue s)
    = with_trace (stored a s) t
    /\ emitted t = [a].
Proof.
  unfold try_except.
  destruct (_emit_alert_shape O a s) as (t & Hs & He).
  destruct (_emit_alert O a s) as [[[]|e] s1]; cbn [snd] in *.
  - exists t. auto.
  - destruct (is_Exception e).
    + rewrite log_and_continue_eq. cbn [snd]. subst s1.
      rewrite with_trace_app. eexists. split; [reflexivity|].
      rewrite emitted_app, He. reflexivity.
    + exists t. auto.
Qed.

(** ** Large liquidity removals *)

Lemma _process_liquidity_event_eq (O : Oracles) (ev : LiquidityEvent) (s : St) :
  _process_liquidity_event O ev s =
  match liq_event_type ev with
  | LIQUIDITY_REMOVE =>
      if Qgtb (Qabs (liquidity_delta ev)) 1000000%Q
      then _emit_alert O (liquidity_alert (uuid4_at O (uuid_draws s)) ev)
                       (with_uuid s (S (uuid_draws s)))
      else (Normal tt, s)
  | _ => (Normal tt, s)
  end.
Proof.
  unfold _process_liquidity_event.
  destruct (liq_event_type ev); try reflexivity.
  destruct (Qgtb (Qabs (liquidity_delta ev)) 1000000%Q); reflexivity.
Qed.

Lemma liquidity_rule_fires (O : Oracles) (ev : LiquidityEvent) (s : St) :
  liq_event_type ev = LIQUIDITY_REMOVE ->
  (1000000 < Qabs (liquidity_delta ev))%Q ->
  let s' := snd (process_event O (EvLiquidity ev) s) in
  let a := liquidity_alert (uuid4_at O (uuid_draws s)) ev in
  emitted (new_io s s') = [a]
  /\ PyDict.get (alert_id a) (active_alerts (self s')) = Some a.
Proof.
  intros Hty Hbig s' a. apply Qgtb_true in Hbig.
  assert (E : process_event O (EvLiquidity ev) s
              = try_except (_emit_alert O a) log_and_continue
                  (with_uuid s (S (uuid_draws s)))).
  { unfold process_event, try_except, dispatch.
    rewrite _process_liquidity_event_eq, Hty, Hbig. reflexivity. }
  subst s'. rewrite E.
  destruct (handled_emission O a (with_uuid s (S (uuid_draws s))))
    as (t & -> & He).
  split.
  - erewrite new_io_app; [|reflexivity]. exact He.
  - apply PyDictFacts.get_set_same.
Qed.

Lemma liquidity_rule_silent (O : Oracles) (ev : LiquidityEvent) (s : St) :
  liq_event_type ev <> LIQUIDITY_REMOVE
  \/ (Qabs (liquidity_delta ev) <= 1000000)%Q ->
  process_event O (EvLiquidity ev) s = (Normal tt, s).
Proof.
  intros H. unfold process_event, try_except, dispatch.
  rewrite _process_liquidity_event_eq.
  destruct (liq_event_type ev); try reflexivity.
  destruct H as [H|H]; [congruence|].
  apply Qgtb_false in H. rewrite H. reflexivity.
Qed.

(** C5.  Processing a liquidity event emits an alert exactly when the
    event is a removal whose absolute delta is strictly above 1,000,000;
    the alert then has severity HIGH and is held as active.  Otherwise
    nothing is emitted and the state does not change at all.  In
    particular a removal of 1,500,000 fires, a removal of 999,999 does
    not, and an addition never does. *)
Theorem large_liquidity_removal_rule
  (O : Oracles) (ev : LiquidityEvent) (s : St) :
  let s' := snd (process_event O (EvLiquidity ev) s) in
  (liq_event_type ev = LIQUIDITY_REMOVE ->
   (1000000 < Qabs (liquidity_delta ev))%Q ->
   exists a, emitted (new_io s s') = [a]
             /\ alert_severity a = HIGH
             /\ alert_event_type a = LIQUIDITY_REMOVE
             /\ PyDict.get (alert_id a) (active_alerts (self s')) = Some a)
  /\ (liq_event_type ev = LIQUIDITY_REMOVE ->
      (Qabs (liquidity_delta ev) <= 1000000)%Q ->
      s' = s /\ emitted (new_io s s') = [])
  /\ (liq_event_type ev = LIQUIDITY_REMOVE ->
      (Qabs (liquidity_delta ev) == 1500000)%Q ->
      exists a, emitted (new_io s s') = [a] /\ alert_severity a = HIGH)
  /\ (liq_event_type ev = LIQUIDITY_REMOVE ->
      (Qabs (liquidity_delta ev) == 999999)%Q ->
      s' = s /\ emitted (new_io s s') = [])
  /\ (liq_event_type ev = LIQUIDITY_ADD ->
      s' = s /\ emitted (new_io s s') = []).
Proof.
  intros s'.
  assert (Hfire : liq_event_type ev = LIQUIDITY_REMOVE ->
                  (1000000 < Qabs (liquidity_delta ev))%Q ->
                  exists a, emitted (new_io s s') = [a]
                    /\ alert_severity a = HIGH
                    /\ alert_event_type a = LIQUIDITY_REMOVE
                    /\ PyDict.get (alert_id a) (active_alerts (self s')) = Some a).
  { intros Hty Hbig.
    destruct (liquidity_rule_fires O ev s Hty Hbig) as [He Hg].
    eexists. split; [exact He|]. split; [reflexivity|].
    split; [reflexivity|exact Hg]. }
  assert (Hsilent : liq_event_type ev <> LIQUIDITY_REMOVE
                    \/ (Qabs (liquidity_delta ev) <= 1000000)%Q ->
                    s' = s /\ emitted (new_io s s') = []).
  { intros H. subst s'. rewrite (liquidity_rule_silent O ev s H). simpl.
    rewrite new_io_same. auto. }
  split; [exact Hfire|].
  split; [intros _ H; apply Hsilent; auto|].
  split.
  { intros Hty H.
    destruct (Hfire Hty) as (a & He & Hs & _); [rewrite H; reflexivity|].
    exists a. auto. }
  split.
  - intros _ H. apply Hsilent. right. rewrite H. discriminate.
  - intros H. apply Hsilent. left. congruence.
Qed.

Lemma large_liquidity_removal_rule_witness :
  let ev := sample_removal (-(1500000))%Q in
  let s' := snd (process_event sample_oracles (EvLiquidity ev) fresh) in
  exists a, emitted (new_io fresh s') = [a]
            /\ alert_severity a = HIGH
            /\ alert_event_type a = LIQUIDITY_REMOVE
            /\ PyDict.get (alert_id a) (active_alerts (self s')) = Some a.
Proof.
  apply (proj1 (large_liquidity_removal_rule
                  sample_oracles (sample_removal (-(1500000))%Q) fresh));
    reflexivity.
Defined.

(** ** The public entry point *)

Lemma process_event_eq (O : Oracles) (ev : Event) (s : St) :
  process_event O ev s = try_except (dispatch O ev) log_and_continue s.
Proof. reflexivity. Qed.

Lemma try_except_normal {A} (c : M A) (h : PyExn -> M A) (s s1 : St) (a : A) :
  c s = (Normal a, s1) -> try_except c h s = (Normal a, s1).
Proof. intros H. unfold try_except. rewrite H. reflexivity. Qed.

Lemma try_except_raised {A} (c : M A) (h : PyExn -> M A) (s s1 : St) (e : PyExn) :
  c s = (Raised e, s1) -> is_Exception e = true -> try_except c h s = h e s1.
Proof. intros H He. unfold try_except. rewrite H, He. reflexivity. Qed.

Lemma try_except_escaped {A} (c : M A) (h : PyExn -> M A) (s s1 : St)
  (e : PyExn) :
  c s = (Raised e, s1) -> is_Exception e = false ->
  try_except c h s = (Raised e, s1).
Proof. intros H He. unfold try_except. rewrite H, He. reflexivity. Qed.

Lemma try_bind_normal {A B} (c : M A) (k : A -> M B) (h : PyExn -> M B)
  (s s1 : St) (a : A) :
  c s = (Normal a, s1) -> try_except (bind c k) h s = try_except (k a) h s1.
Proof. intros H. unfold try_except, bind. rewrite H. reflexivity. Qed.

Lemma try_bind_raised {A B} (c : M A) (k : A -> M B) (h : PyExn -> M B)
  (s s1 : St) (e : PyExn) :
  c s = (Raised e, s1) ->
  try_except (bind c k) h s
  = if is_Exception e then h e s1 else (Raised e, s1).
Proof. intros H. unfold try_except, bind. rewrite H. reflexivity. Qed.

Lemma _process_price_data_eq (O : Oracles) (pd : PriceData) (s : St) :
  _process_price_data O pd s
  = bind (depeg_part O pd) (fun _ => price_change_part O pd) (price_pushed pd s).
Proof.
  unfold _process_price_data, price_pushed, window.
  unfold bind at 1. unfold price_history_getitem, get_self, bind at 1.
  destruct (price_history (self s) !! symbol (pd_token pd)) as [d|] eqn:E;
    simpl.
  - unfold bind at 1. simpl. unfold bind at 1. simpl. reflexivity.
  - unfold bind at 1. simpl. unfold bind at 1. simpl. unfold bind at 1. simpl.
    rewrite insert_insert_eq. reflexivity.
Qed.

Lemma _is_on_cooldown_eq (O : Oracles) (key : string) (s : St) :
  _is_on_cooldown O key s =
  match alert_cooldown (self s) !! key with
  | None => (Normal false, s)
  | Some fired =>
      (Normal (utcnow_at O (clock_reads s) - fired <? cooldown_duration (self s))%Z,
       with_clock s (S (clock_reads s)))
  end.
Proof.
  unfold _is_on_cooldown, bind, get_self.
  destruct (alert_cooldown (self s) !! key); reflexivity.
Qed.

Lemma with_clock_same (s : St) : with_clock s (clock_reads s) = s.
Proof. destruct s. reflexivity. Qed.

Lemma check_off_cooldown (O : Oracles) (key : string) (s : St) :
  off_cooldown O s key ->
  _is_on_cooldown O key s
  = (Normal false, with_clock s (clock_reads s + check_reads s key)).
Proof.
  unfold off_cooldown, check_reads. rewrite _is_on_cooldown_eq.
  destruct (alert_cooldown (self s) !! key) as [fired|].
  - intros H. apply Z.ltb_ge in H. rewrite H. do 2 f_equal. lia.
  - intros _. rewrite Nat.add_0_r, with_clock_same. reflexivity.
Qed.

Lemma check_on_cooldown (O : Oracles) (key : string) (s : St) :
  on_cooldown O s key ->
  _is_on_cooldown O key s = (Normal true, with_clock s (S (clock_reads s))).
Proof.
  intros (fired & Hf & Hlt). rewrite _is_on_cooldown_eq, Hf.
  apply Z.ltb_lt in Hlt. rewrite Hlt. reflexivity.
Qed.

Lemma mark_cooldown_eq (O : Oracles) (key : string) (s : St) :
  mark_cooldown O key s = (Normal tt, marked O key s).
Proof. reflexivity. Qed.

Lemma _check_stablecoin_depeg_eq (O : Oracles) (pd : PriceData) (s : St) :
  _check_stablecoin_depeg O pd s =
  if Qgtb (deviation pd) (depeg_threshold (self s)) then
    match _is_on_cooldown O (depeg_key (symbol (pd_token pd))) s with
    | (Normal true, s1) => (Normal tt, s1)
    | (Normal false, s1) =>
        match relevant_pair pd with
        | Some p =>
            match _emit_alert O (depeg_alert (uuid4_at O (uuid_draws s1)) pd p)
                              (with_uuid s1 (S (uuid_draws s1))) with
            | (Normal _, s2) =>
                (Normal tt, marked O (depeg_key (symbol (pd_token pd))) s2)
            | (Raised e, s2) => (Raised e, s2)
            end
        | None => (Normal tt, s1)
        end
    | (Raised e, s1) => (Raised e, s1)
    end
  else (Normal tt, s).
Proof.
  unfold _check_stablecoin_depeg, py_div.
  change (Qeq_bool 1 0) with false. cbv iota.
  unfold bind at 1, ret at 1. cbv beta iota.
  unfold bind at 1, get_self at 1. cbv beta iota.
  fold (deviation pd).
  destruct (Qgtb (deviation pd) (depeg_threshold (self s))); [|reflexivity].
  unfold bind at 1. fold (depeg_key (symbol (pd_token pd))).
  destruct (_is_on_cooldown O (depeg_key (symbol (pd_token pd))) s)
    as [[[]|e] s1]; try reflexivity.
  unfold relevant_pair.
  destruct (String.eqb (symbol (pd_token pd)) "USDC"); [|reflexivity].
  unfold bind at 1, uuid4 at 1. unfold bind at 1.
  unfold depeg_alert, depeg_severity, with_uuid.
  destruct (_emit_alert O _ _) as [[[]|e] s2]; reflexivity.
Qed.

Lemma same_rules_refl (s : St) : same_rules s s.
Proof.
  constructor; try reflexivity. rewrite new_io_same, app_nil_r. reflexivity.
Qed.

Lemma new_io_trans (s s1 s2 : St) :
  trace s1 = trace s ++ new_io s s1 ->
  trace s2 = trace s1 ++ new_io s1 s2 ->
  new_io s s2 = new_io s s1 ++ new_io s1 s2.
Proof.
  intros H1 H2. apply new_io_app. rewrite H2, H1 at 1.
  rewrite <- app_assoc. reflexivity.
Qed.

Lemma same_rules_trans (s s1 s2 : St) :
  same_rules s s1 -> same_rules s1 s2 -> same_rules s s2.
Proof.
  intros [] []. constructor; try congruence.
  rewrite (new_io_trans s s1 s2) by assumption.
  rewrite app_assoc. congruence.
Qed.

Lemma same_rules_emit (a : Alert) (s : St) (n : nat) (t : list IO) :
  same_rules s (with_trace (stored a (with_uuid s n)) t).
Proof.
  constructor; try reflexivity. simpl.
  erewrite new_io_app; reflexivity.
Qed.

Lemma same_rules_log (s : St) (t : list IO) : same_rules s (with_trace s t).
Proof.
  constructor; try reflexivity. simpl.
  erewrite new_io_app; reflexivity.
Qed.

Lemma new_io_emit (a : Alert) (s : St) (n : nat) (t : list IO) :
  new_io s (with_trace (stored a (with_uuid s n)) t) = t.
Proof. apply new_io_app. reflexivity. Qed.

(** What an emission followed by the handler of [process_event] leaves
    behind, whatever the sink and the callbacks do. *)
Lemma emit_then_handle (O : Oracles) (a : Alert) (s : St) (n : nat) :
  let r := try_except (_emit_alert O a) log_and_continue (with_uuid s n) in
  same_rules s (snd r)
  /\ emitted (new_io s (snd r)) = [a].
Proof.
  cbv zeta. destruct (handled_emission O a (with_uuid s n)) as (t & -> & He).
  split; [apply same_rules_emit|]. rewrite new_io_emit. exact He.
Qed.

Lemma price_change_part_eq (O : Oracles) (pd : PriceData) (s : St) :
  price_change_part O pd s =
  match price_change_24h pd with
  | Some change =>
      if Qtruthy change
         && Qgtb (Qabs change) (price_change_threshold (self s) * 100)%Q
      then _emit_alert O (price_change_alert (uuid4_at O (uuid_draws s)) pd change)
                       (with_uuid s (S (uuid_draws s)))
      else (Normal tt, s)
  | None => (Normal tt, s)
  end.
Proof.
  unfold price_change_part, bind, get_self.
  destruct (price_change_24h pd) as [c|]; [|reflexivity].
  destruct (Qtruthy c && Qgtb (Qabs c) _); reflexivity.
Qed.

(** The generic price-change rule emits at most one alert, of its own
    kind, and touches neither cooldowns nor clock. *)
Lemma price_change_tail (O : Oracles) (pd : PriceData) (s : St) :
  let r := try_except (price_change_part O pd) log_and_continue s in
  same_rules s (snd r)
  /\ Forall (fun a => alert_event_type a = PRICE_CHANGE) (emitted (new_io s (snd r))).
Proof.
  assert (Hquiet :
    let r := try_except (fun s => (Normal tt, s)) log_and_continue s in
    same_rules s (snd r)
    /\ Forall (fun a => alert_event_type a = PRICE_CHANGE)
              (emitted (new_io s (snd r)))).
  { simpl. split; [apply same_rules_refl|].
    rewrite new_io_same. constructor. }
  assert (E : try_except (price_change_part O pd) log_and_continue s
              = match price_change_24h pd with
                | Some change =>
                    if Qtruthy change
                       && Qgtb (Qabs change)
                               (price_change_threshold (self s) * 100)%Q
                    then try_except
                           (_emit_alert O
                              (price_change_alert (uuid4_at O (uuid_draws s))
                                                  pd change))
                           log_and_continue (with_uuid s (S (uuid_draws s)))
                    else try_except (fun s => (Normal tt, s)) log_and_continue s
                | None => try_except (fun s => (Normal tt, s)) log_and_continue s
                end).
  { unfold try_except. rewrite price_change_part_eq.
    destruct (price_change_24h pd) as [c|]; [|reflexivity].
    destruct (Qtruthy c && Qgtb (Qabs c) _); reflexivity. }
  rewrite E. clear E.
  destruct (price_change_24h pd) as [c|]; [|exact Hquiet].
  destruct (Qtruthy c && Qgtb (Qabs c) _); [|exact Hquiet].
  destruct (emit_then_handle O
              (price_change_alert (uuid4_at O (uuid_draws s)) pd c) s
              (S (uuid_draws s))) as (H2 & H3).
  split; [exact H2|].
  rewrite H3. constructor; [reflexivity|constructor].
Qed.

Lemma process_price_after_depeg (O : Oracles) (pd : PriceData) (s s1 : St) :
  depeg_part O pd (price_pushed pd s) = (Normal tt, s1) ->
  let r := process_event O (EvPrice pd) s in
  same_rules s1 (snd r)
  /\ Forall (fun a => alert_event_type a = PRICE_CHANGE)
            (emitted (new_io s1 (snd r))).
Proof.
  intros H. rewrite process_event_eq. unfold dispatch.
  assert (E : try_except (_process_price_data O pd) log_and_continue s
              = try_except (price_change_part O pd) log_and_continue s1).
  { unfold try_except at 1. rewrite _process_price_data_eq.
    unfold bind. rewrite H. reflexivity. }
  rewrite E. apply price_change_tail.
Qed.

Lemma process_price_depeg_raised (O : Oracles) (pd : PriceData) (s s1 : St)
  (e : PyExn) :
  depeg_part O pd (price_pushed pd s) = (Raised e, s1) ->
  process_event O (EvPrice pd) s
  = if is_Exception e
    then (Normal tt, with_trace s1 [LogError process_error_msg])
    else (Raised e, s1).
Proof.
  intros H. rewrite process_event_eq. unfold dispatch, try_except.
  rewrite _process_price_data_eq. unfold bind. rewrite H.
  destruct (is_Exception e); [apply log_and_continue_eq|reflexivity].
Qed.

(** Without a companion pair the depeg rule does nothing but, possibly,
    read the clock. *)
Lemma depeg_part_no_pair (O : Oracles) (pd : PriceData) (s : St) :
  relevant_pair pd = None ->
  exists n, depeg_part O pd s = (Normal tt, with_clock s n).
Proof.
  intros Hp. unfold depeg_part.
  destruct (str_in _ _).
  - rewrite _check_stablecoin_depeg_eq, Hp, _is_on_cooldown_eq.
    destruct (Qgtb _ _).
    + destruct (alert_cooldown (self s) !! _) as [f|].
      * exists (S (clock_reads s)). destruct (_ <? _)%Z; reflexivity.
      * exists (clock_reads s). rewrite with_clock_same. reflexivity.
    + exists (clock_reads s). rewrite with_clock_same. reflexivity.
  - exists (clock_reads s). rewrite with_clock_same. reflexivity.
Qed.

(** Below the threshold the depeg rule does nothing at all. *)
Lemma depeg_part_below (O : Oracles) (pd : PriceData) (s : St) :
  (deviation pd <= depeg_threshold (self s))%Q ->
  depeg_part O pd s = (Normal tt, s).
Proof.
  intros H. apply Qgtb_false in H. unfold depeg_part.
  destruct (str_in _ _); [|reflexivity].
  rewrite _check_stablecoin_depeg_eq, H. reflexivity.
Qed.

(** On cooldown the depeg rule only reads the clock. *)
Lemma depeg_part_on_cooldown (O : Oracles) (pd : PriceData) (s : St) :
  on_cooldown O s (depeg_key (symbol (pd_token pd))) ->
  exists n, depeg_part O pd s = (Normal tt, with_clock s n).
Proof.
  intros H. unfold depeg_part.
  destruct (str_in _ _).
  - rewrite _check_stablecoin_depeg_eq, (check_on_cooldown _ _ _ H).
    destruct (Qgtb _ _).
    + eexists. reflexivity.
    + exists (clock_reads s). rewrite with_clock_same. reflexivity.
  - exists (clock_reads s). rewrite with_clock_same. reflexivity.
Qed.

(** A price update whose depeg rule stays silent: cooldowns are as
    before and nothing but price-change alerts is emitted. *)
Lemma process_price_silent (O : Oracles) (pd : PriceData) (s : St) (n : nat) :
  depeg_part O pd (price_pushed pd s) = (Normal tt, with_clock (price_pushed pd s) n) ->
  let s' := snd (process_event O (EvPrice pd) s) in
  alert_cooldown (self s') = alert_cooldown (self s)
  /\ cooldown_duration (self s') = cooldown_duration (self s)
  /\ depeg_threshold (self s') = depeg_threshold (self s)
  /\ clock_reads s' = n
  /\ Forall (fun a => alert_event_type a = PRICE_CHANGE) (emitted (new_io s s')).
Proof.
  intros H. destruct (process_price_after_depeg O pd s _ H) as (Hs & He).
  destruct Hs. repeat split; try assumption.
Qed.

Lemma relevant_pair_other (pd : PriceData) :
  symbol (pd_token pd) <> "USDC" -> relevant_pair pd = None.
Proof.
  intros H. unfold relevant_pair.
  destruct (String.eqb _ _) eqn:E; [|reflexivity].
  apply String.eqb_eq in E. contradiction.
Qed.

Lemma price_change_is_not_depeg (l : list Alert) :
  Forall (fun a => alert_event_type a = PRICE_CHANGE) l ->
  Forall (fun a => is_depeg a = false) l.
Proof.
  intros HF. eapply Forall_impl; [exact HF|].
  intros a H. unfold is_depeg. rewrite H. reflexivity.
Qed.

Lemma no_pair_no_depeg (O : Oracles) (pd : PriceData) (s : St) :
  symbol (pd_token pd) <> "USDC" ->
  let s' := snd (process_event O (EvPrice pd) s) in
  alert_cooldown (self s') = alert_cooldown (self s)
  /\ Forall (fun a => is_depeg a = false) (emitted (new_io s s')).
Proof.
  intros Hne. apply relevant_pair_other in Hne.
  destruct (depeg_part_no_pair O pd (price_pushed pd s) Hne) as [n Hn].
  destruct (process_price_silent O pd s n Hn) as (Hc & _ & _ & _ & He).
  split; [exact Hc|]. apply price_change_is_not_depeg. exact He.
Qed.

(** ** Stablecoins without a companion pair *)

(** C9.  A price update of USDT, DAI or FRAX never emits a depeg alert
    and never changes the cooldown map, whatever the price is. *)
Theorem non_usdc_stablecoins_never_alert
  (O : Oracles) (pd : PriceData) (s : St) :
  symbol (pd_token pd) = "USDT" \/ symbol (pd_token pd) = "DAI"
  \/ symbol (pd_token pd) = "FRAX" ->
  let s' := snd (process_event O (EvPrice pd) s) in
  alert_cooldown (self s') = alert_cooldown (self s)
  /\ Forall (fun a => is_depeg a = false) (emitted (new_io s s')).
Proof.
  intros H. apply no_pair_no_depeg.
  destruct H as [H|[H|H]]; rewrite H; discriminate.
Qed.

Lemma non_usdc_stablecoins_never_alert_witness :
  let s' := snd (process_event sample_oracles
                   (EvPrice (sample_price usdt (1 # 2)%Q)) fresh) in
  alert_cooldown (self s') = alert_cooldown (self fresh)
  /\ Forall (fun a => is_depeg a = false) (emitted (new_io fresh s')).
Proof.
  apply (non_usdc_stablecoins_never_alert
           sample_oracles (sample_price usdt (1 # 2)%Q) fresh).
  left. reflexivity.
Defined.

(** ** The depeg rule on USDC *)

Lemma relevant_pair_usdc (pd : PriceData) :
  symbol (pd_token pd) = "USDC" -> relevant_pair pd = Some (usdc_pair pd).
Proof. intros H. unfold relevant_pair. rewrite H. reflexivity. Qed.

Lemma str_in_usdc (pd : PriceData) :
  symbol (pd_token pd) = "USDC" -> str_in (symbol (pd_token pd)) stablecoins = true.
Proof. intros ->. reflexivity. Qed.

Lemma depeg_part_fires (O : Oracles) (pd : PriceData) (s : St) :
  symbol (pd_token pd) = "USDC" ->
  (depeg_threshold (self s) < deviation pd)%Q ->
  off_cooldown O s (depeg_key "USDC") ->
  depeg_part O pd s =
  match _emit_alert O (usdc_depeg_alert O pd s) (depeg_ready s) with
  | (Normal _, s2) => (Normal tt, marked O (depeg_key "USDC") s2)
  | (Raised e, s2) => (Raised e, s2)
  end.
Proof.
  intros Hsym Hdev Hoff. apply Qgtb_true in Hdev.
  unfold depeg_part. rewrite (str_in_usdc pd Hsym).
  rewrite _check_stablecoin_depeg_eq, Hdev, (relevant_pair_usdc pd Hsym), Hsym.
  rewrite (check_off_cooldown O _ s Hoff). reflexivity.
Qed.

Lemma process_price_fires (O : Oracles) (pd : PriceData) (s : St) :
  symbol (pd_token pd) = "USDC" ->
  (depeg_threshold (self s) < deviation pd)%Q ->
  off_cooldown O s (depeg_key "USDC") ->
  let s' := snd (process_event O (EvPrice pd) s) in
  let k := clock_reads s + check_reads s (depeg_key "USDC") in
  let a := usdc_depeg_alert O pd s in
  (exists rest,
      emitted (new_io s s') = a :: rest
      /\ Forall (fun b => alert_event_type b = PRICE_CHANGE) rest)
  /\ (insert_alert_raises O (trace s) a = false ->
      callbacks_stay_in_class O a ->
      alert_cooldown (self s')
      = <[depeg_key "USDC" := utcnow_at O k]> (alert_cooldown (self s))
      /\ clock_reads s' = S k
      /\ cooldown_duration (self s') = cooldown_duration (self s)
      /\ depeg_threshold (self s') = depeg_threshold (self s)).
Proof.
  intros Hsym Hdev Hoff s' k a.
  pose proof (depeg_part_fires O pd (price_pushed pd s) Hsym Hdev Hoff) as H.
  change (usdc_depeg_alert O pd (price_pushed pd s)) with a in H.
  set (p := depeg_ready (price_pushed pd s)) in H.
  destruct (_emit_alert_shape O a p) as (t & Hshape & Het).
  destruct (_emit_alert O a p) as [[[]|e] s2] eqn:Hemit; cbn [snd] in Hshape;
    subst s2.
  - (* the emission ran to its end *)
    set (m := marked O (depeg_key "USDC") (with_trace (stored a p) t)) in H.
    destruct (process_price_after_depeg O pd s m H) as (Hs & He).
    fold s' in Hs, He.
    assert (Ht : trace m = trace s ++ t) by reflexivity.
    split.
    + exists (emitted (new_io m s')). split; [|exact He].
      rewrite (new_io_app s s' (t ++ new_io m s')).
      * rewrite emitted_app, Het. reflexivity.
      * rewrite (sr_trace _ _ Hs), Ht, <- app_assoc. reflexivity.
    + intros _ _. destruct Hs. repeat split; assumption.
  - (* the emission raised *)
    split.
    + subst s'. rewrite (process_price_depeg_raised O pd s _ _ H).
      exists []. split; [|constructor].
      destruct (is_Exception e); cbn [snd].
      * rewrite (new_io_app s _ (t ++ [LogError process_error_msg])).
        -- rewrite emitted_app, Het. reflexivity.
        -- simpl. rewrite <- app_assoc. reflexivity.
      * rewrite (new_io_app s _ t); [exact Het|reflexivity].
    + intros Hsink Hcb. exfalso.
      change (trace s) with (trace p) in Hsink.
      rewrite (_emit_alert_completes O a p Hsink Hcb) in Hemit.
      discriminate.
Qed.




(** ** Severity of depeg alerts *)

Lemma deviation_of_price (pd : PriceData) (p : Q) :
  (price_usd pd == p)%Q -> (deviation pd == Qabs (p - 1))%Q.
Proof.
  intros H. unfold deviation. rewrite H. field.
Qed.

Lemma depeg_severity_high (d : Q) :
  (10 # 100 < d)%Q -> (d <= 20 # 100)%Q -> depeg_severity d = HIGH.
Proof.
  intros H1 H2. unfold depeg_severity.
  apply Qgtb_false in H2. apply Qgtb_true in H1. rewrite H2, H1. reflexivity.
Qed.

Lemma depeg_severity_critical (d : Q) :
  (20 # 100 < d)%Q -> depeg_severity d = CRITICAL.
Proof.
  intros H. unfold depeg_severity. apply Qgtb_true in H. rewrite H. reflexivity.
Qed.

(** C3, as stated, fails: USDT is a recognised stablecoin that is not on
    cooldown, and a price of 0.88 yields no alert. *)
Lemma usdt_at_088_yields_no_alert :
  let pd := sample_price usdt (88 # 100)%Q in
  let s' := snd (process_event sample_oracles (EvPrice pd) fresh) in
  str_in (symbol (pd_token pd)) stablecoins = true
  /\ off_cooldown sample_oracles fresh (depeg_key (symbol (pd_token pd)))
  /\ emitted (new_io fresh s') = []
  /\ active_alerts (self s') = [].
Proof.
  repeat split.
Qed.

(** C3, amended.  For a USDC update with the key off cooldown and the
    default threshold 0.05: a price of 0.88 emits a depeg alert of
    severity HIGH, a price of 0.70 one of severity CRITICAL, and a price
    of 0.98 emits no depeg alert and leaves the cooldowns alone.  The
    depeg alert is the first one emitted; any other alert of the same
    update is a price-change alert. *)
Theorem usdc_depeg_severity (O : Oracles) (pd : PriceData) (s : St) :
  symbol (pd_token pd) = "USDC" ->
  (depeg_threshold (self s) == default_depeg_threshold)%Q ->
  off_cooldown O s (depeg_key "USDC") ->
  let s' := snd (process_event O (EvPrice pd) s) in
  ((price_usd pd == 88 # 100)%Q ->
   exists a rest, emitted (new_io s s') = a :: rest
     /\ is_depeg a = true /\ alert_severity a = HIGH
     /\ Forall (fun b => is_depeg b = false) rest)
  /\ ((price_usd pd == 70 # 100)%Q ->
      exists a rest, emitted (new_io s s') = a :: rest
        /\ is_depeg a = true /\ alert_severity a = CRITICAL
        /\ Forall (fun b => is_depeg b = false) rest)
  /\ ((price_usd pd == 98 # 100)%Q ->
      Forall (fun b => is_depeg b = false) (emitted (new_io s s'))
      /\ alert_cooldown (self s') = alert_cooldown (self s)).
Proof.
  intros Hsym Hthr Hoff s'.
  assert (Hfire : forall p sev,
    (price_usd pd == p)%Q -> (default_depeg_threshold < Qabs (p - 1))%Q ->
    depeg_severity (Qabs (p - 1)) = sev ->
    exists a rest, emitted (new_io s s') = a :: rest
      /\ is_depeg a = true /\ alert_severity a = sev
      /\ Forall (fun b => is_depeg b = false) rest).
  { intros p sev Hp Hbig Hsev.
    pose proof (deviation_of_price pd p Hp) as Hdev.
    assert (Hover : (depeg_threshold (self s) < deviation pd)%Q)
      by (rewrite Hthr, Hdev; exact Hbig).
    destruct (process_price_fires O pd s Hsym Hover Hoff)
      as ((rest & He & Hrest) & _).
    exists (usdc_depeg_alert O pd s), rest.
    split; [exact He|]. split; [reflexivity|].
    split; [|apply price_change_is_not_depeg; exact Hrest].
    simpl. rewrite <- Hsev. unfold depeg_severity.
    assert (Hg : forall c, Qgtb (deviation pd) c = Qgtb (Qabs (p - 1)) c).
    { intros c. destruct (Qgtb (Qabs (p - 1)) c) eqn:E.
      - apply Qgtb_true. apply Qgtb_true in E. rewrite Hdev. exact E.
      - apply Qgtb_false. apply Qgtb_false in E. rewrite Hdev. exact E. }
    rewrite !Hg. reflexivity. }
  split; [|split].
  - intros Hp. apply (Hfire _ HIGH Hp); reflexivity.
  - intros Hp. apply (Hfire _ CRITICAL Hp); reflexivity.
  - intros Hp. pose proof (deviation_of_price pd _ Hp) as Hdev.
    assert (Hlow : (deviation pd <= depeg_threshold (self s))%Q).
    { rewrite Hthr, Hdev. discriminate. }
    pose proof (depeg_part_below O pd (price_pushed pd s) Hlow) as Hq.
    rewrite <- (with_clock_same (price_pushed pd s)) in Hq at 2.
    destruct (process_price_silent O pd s _ Hq) as (Hc & _ & _ & _ & He).
    split; [apply price_change_is_not_depeg; exact He | exact Hc].
Qed.

Lemma usdc_depeg_severity_witness :
  let pd := sample_price usdc (88 # 100)%Q in
  let s' := snd (process_event sample_oracles (EvPrice pd) fresh) in
  exists a rest, emitted (new_io fresh s') = a :: rest
    /\ is_depeg a = true /\ alert_severity a = HIGH
    /\ Forall (fun b => is_depeg b = false) rest.
Proof.
  apply (proj1 (usdc_depeg_severity
                  sample_oracles (sample_price usdc (88 # 100)%Q) fresh
                  eq_refl (Qeq_refl _) I)).
  reflexivity.
Defined.

(** ** The cooldown window of the depeg rule *)








(** ** Resolving alerts *)

Lemma del_set_same {V} (k : string) (v v' : V) (d : list (string * V)) :
  PyDict.get k d = Some v -> PyDict.del k (PyDict.set k v' d) = PyDict.del k d.
Proof.
  induction d as [|[k0 v0] d IH]; simpl; [discriminate|].
  destruct (String.eqb k k0) eqn:E; simpl.
  - intros _. rewrite String.eqb_refl. reflexivity.
  - intros H. rewrite E, (IH H). reflexivity.
Qed.

Lemma resolve_alert_eq (O : Oracles) (id : string) (s : St) :
  resolve_alert O id s =
  match PyDict.get id (active_alerts (self s)) with
  | None => (Normal tt, s)
  | Some a =>
      let a' := alert_resolve (utcnow_at O (clock_reads s)) a in
      let d' := PyDict.set id a' (active_alerts (self s)) in
      let s1 := with_clock (with_active s d') (S (clock_reads s)) in
      if insert_alert_raises O (trace s) a'
      then (Raised (sink_exn O (trace s) a'),
            with_trace s1 [DbInsertAlert a' true])
      else (Normal tt,
            with_trace (with_active s1 (PyDict.del id d'))
              [DbInsertAlert a' false; LogInfo (alert_resolved_msg a')])
  end.
Proof.
  unfold resolve_alert, bind, get_self.
  destruct (PyDict.get id (active_alerts (self s))) as [a|]; [|reflexivity].
  unfold utcnow, set_self, insert_alert, get_trace, bind. simpl.
  destruct (insert_alert_raises O (trace s) _); simpl.
  - reflexivity.
  - unfold logger_info, emit_io. simpl. rewrite <- app_assoc. reflexivity.
Qed.

(** C6, as stated, fails: when the sink rejects the write, resolving an
    active id raises, and the alert, though flagged as resolved, is still
    among the active alerts. *)
Lemma rejected_write_keeps_alert_active :
  let s := one_active in
  let a := liquidity_alert "alert-0" (sample_removal (-(1500000))%Q) in
  let r := resolve_alert failing_sink_oracles "alert-0" s in
  PyDict.get "alert-0" (active_alerts (self s)) = Some a
  /\ fst r = Raised SinkError
  /\ fst (get_active_alerts (snd r)) = Normal [alert_resolve 0 a]
  /\ resolved (alert_resolve 0 a) = true.
Proof.
  repeat split.
Qed.

(** C6, amended.  Resolving an id that is not active returns normally
    and leaves the whole state as it was.  Resolving an active id sets
    [resolved] on the alert, leaving it otherwise unchanged, and hands it
    to the persistence sink.  If the write is accepted, the call returns
    normally and the active alerts are the former ones without that
    entry, in their former order, so that the id is no longer active and
    every other id is bound as before.  If the write is rejected, the
    call raises what the sink raised and the alert stays active, flagged
    as resolved. *)
Theorem resolve_alert_spec (O : Oracles) (id : string) (s : St) :
  (PyDict.get id (active_alerts (self s)) = None ->
   resolve_alert O id s = (Normal tt, s))
  /\ (forall a,
        PyDict.get id (active_alerts (self s)) = Some a ->
        NoDup (PyDict.keys (active_alerts (self s))) ->
        let a' := alert_resolve (utcnow_at O (clock_reads s)) a in
        let r := resolve_alert O id s in
        resolved a' = true
        /\ a' = mkAlert (alert_id a) (alert_timestamp a) (alert_event_type a)
                        (alert_severity a) (alert_title a) (alert_detail a)
                        true (resolved_at a')
        /\ emitted (new_io s (snd r)) = [a']
        /\ (forall k, k <> id ->
              PyDict.get k (active_alerts (self (snd r)))
              = PyDict.get k (active_alerts (self s)))
        /\ (insert_alert_raises O (trace s) a' = false ->
            fst r = Normal tt
            /\ PyDict.get id (active_alerts (self (snd r))) = None
            /\ (exists d1 d2,
                  active_alerts (self s) = d1 ++ (id, a) :: d2
                  /\ fst (get_active_alerts (snd r))
                     = Normal (PyDict.values (d1 ++ d2))))
        /\ (insert_alert_raises O (trace s) a' = true ->
            fst r = Raised (sink_exn O (trace s) a')
            /\ PyDict.get id (active_alerts (self (snd r))) = Some a'
            /\ (exists d1 d2,
                  active_alerts (self s) = d1 ++ (id, a) :: d2
                  /\ fst (get_active_alerts (snd r))
                     = Normal (PyDict.values (d1 ++ (id, a') :: d2))))).
Proof.
  split.
  - intros H. rewrite resolve_alert_eq, H. reflexivity.
  - intros a Hget Hnd a' r. subst r.
    rewrite resolve_alert_eq, Hget. cbv zeta. fold a'.
    set (d := active_alerts (self s)) in *.
    assert (Hdel : PyDict.del id (PyDict.set id a' d) = PyDict.del id d)
      by (apply (del_set_same id a a' d Hget)).
    destruct (PyDictFacts.values_del id a d Hget) as (d1 & d2 & Hd & Hd' & Hk1).
    assert (Hset : PyDict.set id a' d = d1 ++ (id, a') :: d2).
    { rewrite Hd. apply PyDictFacts.set_at. exact Hk1. }
    split; [reflexivity|]. split; [reflexivity|].
    destruct (insert_alert_raises O (trace s) a') eqn:Hsink; cbn [fst snd].
    + split; [erewrite new_io_app; [|reflexivity]; reflexivity|].
      unfold with_trace, with_active, with_clock, with_self.
      cbn [self active_alerts set_active_alerts]. fold d.
      split; [intros k Hk; apply PyDictFacts.get_set_other; congruence|].
      split; [discriminate|]. intros _.
      split; [reflexivity|].
      split; [apply PyDictFacts.get_set_same|].
      exists d1, d2. split; [exact Hd|].
      unfold get_active_alerts, bind, get_self, ret.
      cbn [fst self active_alerts set_active_alerts].
      fold d. rewrite Hset. reflexivity.
    + split; [erewrite new_io_app; [|reflexivity]; reflexivity|].
      unfold with_trace, with_active, with_clock, with_self.
      cbn [self active_alerts set_active_alerts]. fold d.
      rewrite Hdel.
      split; [intros k Hk; apply PyDictFacts.get_del_other; congruence|].
      split; [|discriminate]. intros _.
      split; [reflexivity|].
      split; [apply PyDictFacts.get_del_same; exact Hnd|].
      exists d1, d2. split; [exact Hd|].
      unfold get_active_alerts, bind, get_self, ret.
      cbn [fst self active_alerts set_active_alerts].
      rewrite Hd'. reflexivity.
Qed.

Lemma resolve_alert_spec_witness :
  let s := one_active in
  let r := resolve_alert sample_oracles "alert-0" s in
  fst r = Normal tt
  /\ PyDict.get "alert-0" (active_alerts (self (snd r))) = None
  /\ fst (get_active_alerts (snd r)) = Normal [].
Proof.
  destruct (proj2 (resolve_alert_spec sample_oracles "alert-0" one_active)
              (liquidity_alert "alert-0" (sample_removal (-(1500000))%Q))
              eq_refl)
    as (_ & _ & _ & _ & H5 & _).
  - apply NoDup_singleton.
  - destruct (H5 eq_refl) as (H1 & H2 & _).
    split; [exact H1|]. split; [exact H2|]. reflexivity.
Defined.

(** ** Swaps and the volume-spike rule *)

Lemma volume_pushed_lookup (e : SwapEvent) (s : St) :
  volume_history (self (volume_pushed e s)) !! pair_key (swap_pair e)
  = Some (window_after_swap e s).
Proof.
  unfold window_after_swap, window, volume_pushed. simpl.
  rewrite lookup_insert_eq. reflexivity.
Qed.

(** Both sides run the same check; make the two states it starts from
    syntactically equal. *)
Ltac same_state :=
  match goal with
  | |- (let (_, _) := _check_volume_spike _ _ _ ?a in _)
       = (let (_, _) := _check_volume_spike _ _ _ ?b in _) =>
      change a with b
  end.

Lemma process_swap_eq (O : Oracles) (e : SwapEvent) (s : St) :
  process_event O (EvSwap e) s
  = try_except (_check_volume_spike O (swap_pair e) (volume_usd e))
               log_and_continue (volume_pushed e s).
Proof.
  rewrite process_event_eq. unfold dispatch, try_except.
  assert (E : _process_swap_event O e s
              = match _check_volume_spike O (swap_pair e) (volume_usd e)
                        (volume_pushed e s) with
                | (Normal _, s1) => (Normal tt, s1)
                | (Raised x, s1) => (Raised x, s1)
                end).
  { unfold _process_swap_event, volume_pushed, window.
    fold (pair_key (swap_pair e)). fold (volume_usd e).
    unfold bind at 1. unfold volume_history_getitem, get_self, bind at 1.
    destruct (volume_history (self s) !! pair_key (swap_pair e)) as [d|] eqn:E;
      simpl.
    - unfold bind at 1. simpl. unfold bind at 1. simpl. unfold bind at 1.
      same_state.
      destruct (_check_volume_spike O _ _ _) as [[[]|x] s1]; [|reflexivity].
      destruct (Qgtb (price e) 0); reflexivity.
    - unfold bind at 1. simpl. unfold bind at 1. simpl. unfold bind at 1. simpl.
      rewrite insert_insert_eq.
      same_state.
      destruct (_check_volume_spike O _ _ _) as [[[]|x] s1]; [|reflexivity].
      destruct (Qgtb (price e) 0); reflexivity. }
  rewrite E.
  destruct (_check_volume_spike O _ _ _) as [[[]|x] s1]; reflexivity.
Qed.

Lemma recent_volumes_length (w : list Sample) :
  10 <= length w ->
  length (map sample_value (py_slice (-10) (-1) w)) = 9.
Proof.
  intros H. rewrite py_slice_last_ten by exact H.
  rewrite length_map, length_take, length_drop. lia.
Qed.

Lemma positive_not_zero (x : F64) :
  fl_gtb x (Fin 0) = true -> fl_is_zero x = false.
Proof.
  destruct x as [q| | |]; simpl; try reflexivity.
  intros H. apply Qgtb_true in H. apply Qeq_bool_false.
  intros E. rewrite E in H. apply (Qlt_irrefl 0). exact H.
Qed.

Lemma _check_volume_spike_eq (O : Oracles) (p : TradingPair) (v : F64) (s : St)
  (w : list Sample) :
  volume_history (self s) !! pair_key p = Some w ->
  _check_volume_spike O p v s =
  if spike_condition w v (volume_spike_threshold (self s)) then
    match _is_on_cooldown O (volume_spike_key p) s with
    | (Normal true, s1) => (Normal tt, s1)
    | (Normal false, s1) =>
        match _emit_alert O
                (volume_alert (uuid4_at O (uuid_draws s1))
                              (utcnow_at O (clock_reads s1)) p v
                              (recent_average w))
                (with_uuid (with_clock s1 (S (clock_reads s1)))
                           (S (uuid_draws s1))) with
        | (Normal _, s2) => (Normal tt, marked O (volume_spike_key p) s2)
        | (Raised x, s2) => (Raised x, s2)
        end
    | (Raised x, s1) => (Raised x, s1)
    end
  else (Normal tt, s).
Proof.
  intros Hw. unfold _check_volume_spike, spike_condition.
  fold (pair_key p). fold (volume_spike_key p).
  unfold bind at 1. unfold volume_history_getitem, get_self, bind at 1.
  rewrite Hw. unfold ret at 1.
  destruct (length w <? 10)%nat eqn:Hlen.
  - apply Nat.ltb_lt in Hlen.
    replace (10 <=? length w)%nat with false
      by (symmetry; apply Nat.leb_gt; exact Hlen).
    reflexivity.
  - apply Nat.ltb_ge in Hlen.
    replace (10 <=? length w)%nat with true
      by (symmetry; apply Nat.leb_le; exact Hlen).
    rewrite (recent_volumes_length w Hlen).
    rewrite (py_slice_last_ten w Hlen).
    unfold fl_div at 1.
    change (fl_is_zero (Fin (inject_Z (Z.of_nat 9)))) with false.
    cbv iota. unfold bind at 1, ret at 1. cbv beta iota.
    change (fl_quot (py_sum (map sample_value (take 9 (drop (length w - 10) w))))
                    (Fin (inject_Z (Z.of_nat 9))))
      with (recent_average w).
    unfold bind at 1. cbv beta iota.
    change (true && ?b) with b.
    destruct (fl_gtb (recent_average w) (Fin 0)) eqn:Hpos; [|reflexivity].
    change (true && ?b) with b.
    destruct (fl_gtb v (fl_mul (recent_average w)
                               (Fin (volume_spike_threshold (self s)))));
      [|reflexivity].
    unfold bind at 1.
    destruct (_is_on_cooldown O (volume_spike_key p) s) as [[[]|x] s1];
      try reflexivity.
    unfold fl_div. rewrite (positive_not_zero _ Hpos).
    unfold bind at 1, ret at 1. cbv beta iota.
    unfold bind at 1, uuid4 at 1. cbv beta iota.
    unfold bind at 1, utcnow at 1. cbv beta iota.
    unfold bind at 1.
    unfold volume_alert, with_uuid, with_clock. cbn [self clock_reads uuid_draws trace].
    destruct (_emit_alert O _ _) as [[[]|x] s2]; reflexivity.
Qed.

Lemma emit_keeps_windows (O : Oracles) (a : Alert) (s : St) :
  same_windows s (snd (_emit_alert O a s)).
Proof.
  destruct (_emit_alert_shape O a s) as (t & -> & _). split; reflexivity.
Qed.

Lemma check_keeps_windows (O : Oracles) (key : string) (s : St) :
  same_windows s (snd (_is_on_cooldown O key s)).
Proof.
  rewrite _is_on_cooldown_eq.
  destruct (alert_cooldown (self s) !! key); split; reflexivity.
Qed.

Lemma same_windows_trans (s s1 s2 : St) :
  same_windows s s1 -> same_windows s1 s2 -> same_windows s s2.
Proof. intros [] []. split; congruence. Qed.

Lemma spike_check_keeps_windows (O : Oracles) (p : TradingPair) (v : F64)
  (s : St) (w : list Sample) :
  volume_history (self s) !! pair_key p = Some w ->
  same_windows s (snd (_check_volume_spike O p v s)).
Proof.
  intros Hw. rewrite (_check_volume_spike_eq O p v s w Hw).
  destruct (spike_condition _ _ _); [|split; reflexivity].
  pose proof (check_keeps_windows O (volume_spike_key p) s) as Hc.
  destruct (_is_on_cooldown O (volume_spike_key p) s) as [[[]|x] s1];
    try exact Hc.
  match goal with
  | |- context [_emit_alert O ?a ?st] =>
      pose proof (emit_keeps_windows O a st) as He;
      destruct (_emit_alert O a st) as [[[]|x] s2]
  end.
  - eapply same_windows_trans; [exact Hc|].
    eapply same_windows_trans; [|exact He]. split; reflexivity.
  - eapply same_windows_trans; [exact Hc|]. exact He.
Qed.

Lemma depeg_part_keeps_windows (O : Oracles) (pd : PriceData) (s : St) :
  same_windows s (snd (depeg_part O pd s)).
Proof.
  unfold depeg_part. destruct (str_in _ _); [|split; reflexivity].
  rewrite _check_stablecoin_depeg_eq.
  destruct (Qgtb _ _); [|split; reflexivity].
  pose proof (check_keeps_windows O (depeg_key (symbol (pd_token pd))) s) as Hc.
  destruct (_is_on_cooldown O _ s) as [[[]|x] s1]; try exact Hc.
  destruct (relevant_pair pd) as [tp|]; [|exact Hc].
  match goal with
  | |- context [_emit_alert O ?a ?st] =>
      pose proof (emit_keeps_windows O a st) as He;
      destruct (_emit_alert O a st) as [[[]|x] s2]
  end.
  - eapply same_windows_trans; [exact Hc|].
    eapply same_windows_trans; [|exact He]. split; reflexivity.
  - eapply same_windows_trans; [exact Hc|]. exact He.
Qed.

(** Each event changes the windows by at most one push: a swap pushes
    on its pair's volume window, a price update on its token's price
    window, and nothing else touches them. *)
Lemma process_event_windows (O : Oracles) (ev : Event) (s : St) :
  same_windows
    (match ev with
     | EvSwap e => volume_pushed e s
     | EvPrice pd => price_pushed pd s
     | _ => s
     end)
    (snd (process_event O ev s)).
Proof.
  destruct ev as [e|e|pd|r].
  - rewrite process_swap_eq. unfold try_except.
    pose proof (spike_check_keeps_windows O (swap_pair e) (volume_usd e)
                  (volume_pushed e s) _ (volume_pushed_lookup e s)) as H.
    destruct (_check_volume_spike O _ _ _) as [[[]|x] s1];
      [exact H|]. destruct (is_Exception x); exact H.
  - rewrite process_event_eq. unfold dispatch, try_except.
    rewrite _process_liquidity_event_eq.
    destruct (liq_event_type e); try (split; reflexivity).
    destruct (Qgtb _ _); [|split; reflexivity].
    match goal with
    | |- context [_emit_alert O ?a ?st] =>
        pose proof (emit_keeps_windows O a st) as He;
        destruct (_emit_alert O a st) as [[[]|x] s2]
    end; [exact He|]. destruct (is_Exception x); exact He.
  - pose proof (depeg_part_keeps_windows O pd (price_pushed pd s)) as Hd.
    destruct (depeg_part O pd (price_pushed pd s)) as [[[]|x] s1] eqn:E.
    + destruct (process_price_after_depeg O pd s s1 E) as (Hs & _).
      eapply same_windows_trans; [exact Hd|].
      destruct Hs. split; assumption.
    + rewrite (process_price_depeg_raised O pd s s1 x E).
      destruct (is_Exception x); exact Hd.
  - split; reflexivity.
Qed.

(** ** Rolling windows *)

Lemma last_n_short {A} (n : nat) (l : list A) : length l <= n -> last_n n l = l.
Proof.
  intros H. unfold last_n. replace (length l - n) with 0 by lia. reflexivity.
Qed.

Lemma last_n_length {A} (n : nat) (l : list A) : length (last_n n l) <= n.
Proof. unfold last_n. rewrite length_drop. lia. Qed.

Lemma last_n_app {A} (n : nat) (l r : list A) :
  last_n n (last_n n l ++ r) = last_n n (l ++ r).
Proof.
  destruct (decide (length l <= n)) as [Hle|Hgt].
  - rewrite (last_n_short n l Hle). reflexivity.
  - unfold last_n. rewrite !length_app, length_drop.
    replace (length l - (length l - n) + length r - n) with (length r) by lia.
    replace (length l + length r - n) with ((length l - n) + length r) by lia.
    rewrite <- drop_drop, (drop_app_le l r (length l - n)) by lia.
    reflexivity.
Qed.

Lemma deque_append_last_n {A} (n : nat) (x : A) (d : list A) :
  length d <= n -> deque_append n x d = last_n n (d ++ [x]).
Proof. apply deque_append_suffix. Qed.

Lemma push_all_last_n {A} (n : nat) (xs d : list A) :
  length d <= n -> push_all n xs d = last_n n (d ++ xs).
Proof.
  intros H. rewrite <- (last_n_short n d H) at 1. apply push_all_suffix.
Qed.

Lemma window_insert (h : gmap string (list Sample)) (k key : string)
  (w : list Sample) :
  window (<[k := w]> h) key = if String.eqb k key then w else window h key.
Proof.
  unfold window. destruct (String.eqb k key) eqn:E.
  - apply String.eqb_eq in E. subst. rewrite lookup_insert_eq. reflexivity.
  - apply String.eqb_neq in E. rewrite lookup_insert_ne by exact E. reflexivity.
Qed.

(** One event, seen from one volume window. *)
Lemma volume_window_step (O : Oracles) (ev : Event) (s : St) (key : string) :
  length (window (volume_history (self s)) key) <= 50 ->
  window (volume_history (self (snd (process_event O ev s)))) key
  = last_n 50 (window (volume_history (self s)) key ++ volume_samples key [ev]).
Proof.
  intros Hlen. destruct (process_event_windows O ev s) as [_ Hv].
  rewrite Hv. destruct ev as [e|e|pd|r]; simpl;
    try (rewrite app_nil_r, last_n_short by exact Hlen; reflexivity).
  rewrite window_insert.
  destruct (String.eqb (pair_key (swap_pair e)) key) eqn:E; simpl.
  - apply String.eqb_eq in E. subst key.
    apply deque_append_last_n. exact Hlen.
  - rewrite app_nil_r, last_n_short by exact Hlen. reflexivity.
Qed.

Lemma price_window_step (O : Oracles) (ev : Event) (s : St) (key : string) :
  length (window (price_history (self s)) key) <= 100 ->
  window (price_history (self (snd (process_event O ev s)))) key
  = last_n 100 (window (price_history (self s)) key ++ price_samples key [ev]).
Proof.
  intros Hlen. destruct (process_event_windows O ev s) as [Hp _].
  rewrite Hp. destruct ev as [e|e|pd|r]; simpl;
    try (rewrite app_nil_r, last_n_short by exact Hlen; reflexivity).
  rewrite window_insert.
  destruct (String.eqb (symbol (pd_token pd)) key) eqn:E; simpl.
  - apply String.eqb_eq in E. subst key.
    apply deque_append_last_n. exact Hlen.
  - rewrite app_nil_r, last_n_short by exact Hlen. reflexivity.
Qed.

Lemma volume_samples_cons (key : string) (ev : Event) (events : list Event) :
  volume_samples key (ev :: events)
  = volume_samples key [ev] ++ volume_samples key events.
Proof.
  unfold volume_samples. destruct ev as [e|e|pd|r]; simpl; try reflexivity.
  destruct (String.eqb _ _); reflexivity.
Qed.

Lemma price_samples_cons (key : string) (ev : Event) (events : list Event) :
  price_samples key (ev :: events)
  = price_samples key [ev] ++ price_samples key events.
Proof.
  unfold price_samples. destruct ev as [e|e|pd|r]; simpl; try reflexivity.
  destruct (String.eqb _ _); reflexivity.
Qed.

Lemma volume_window_run (O : Oracles) (events : list Event) (s : St)
  (key : string) :
  length (window (volume_history (self s)) key) <= 50 ->
  window (volume_history (self (run_events O events s))) key
  = last_n 50 (window (volume_history (self s)) key ++ volume_samples key events).
Proof.
  revert s. induction events as [|ev events IH]; intros s Hlen.
  - simpl. rewrite app_nil_r, last_n_short by exact Hlen. reflexivity.
  - simpl run_events. rewrite IH.
    + rewrite (volume_window_step O ev s key Hlen), last_n_app.
      rewrite <- app_assoc, <- volume_samples_cons. reflexivity.
    + rewrite (volume_window_step O ev s key Hlen). apply last_n_length.
Qed.

Lemma price_window_run (O : Oracles) (events : list Event) (s : St)
  (key : string) :
  length (window (price_history (self s)) key) <= 100 ->
  window (price_history (self (run_events O events s))) key
  = last_n 100 (window (price_history (self s)) key ++ price_samples key events).
Proof.
  revert s. induction events as [|ev events IH]; intros s Hlen.
  - simpl. rewrite app_nil_r, last_n_short by exact Hlen. reflexivity.
  - simpl run_events. rewrite IH.
    + rewrite (price_window_step O ev s key Hlen), last_n_app.
      rewrite <- app_assoc, <- price_samples_cons. reflexivity.
    + rewrite (price_window_step O ev s key Hlen). apply last_n_length.
Qed.

(** C8.  A deque bounded by [N] never grows beyond [N]: a push on a
    deque that is not full appends, a push on a full one drops the
    oldest item and appends, so that after any pushes the deque holds
    the most recent [N] items in insertion order.  In the manager,
    whatever events are processed, each pair's volume window holds the
    most recent 50 samples recorded for that pair, and each token's
    price window the most recent 100 samples recorded for that token,
    oldest first. *)
Theorem rolling_windows_bounded_fifo :
  (forall (A : Type) (N : nat) (x : A) (d : list A),
      1 <= N -> length d <= N ->
      length (deque_append N x d) <= N
      /\ (length d < N -> deque_append N x d = d ++ [x])
      /\ (length d = N -> deque_append N x d = drop 1 d ++ [x]))
  /\ (forall (A : Type) (N : nat) (xs d : list A),
         length d <= N ->
         push_all N xs d = last_n N (d ++ xs)
         /\ length (push_all N xs d) <= N)
  /\ (forall (O : Oracles) (events : list Event) (s : St) (key : string),
         length (window (volume_history (self s)) key) <= 50 ->
         let s' := run_events O events s in
         window (volume_history (self s')) key
         = last_n 50 (window (volume_history (self s)) key
                      ++ volume_samples key events)
         /\ length (window (volume_history (self s')) key) <= 50)
  /\ (forall (O : Oracles) (events : list Event) (s : St) (key : string),
         length (window (price_history (self s)) key) <= 100 ->
         let s' := run_events O events s in
         window (price_history (self s')) key
         = last_n 100 (window (price_history (self s)) key
                       ++ price_samples key events)
         /\ length (window (price_history (self s')) key) <= 100).
Proof.
  split; [|split; [|split]].
  - intros A N x d HN Hd. split; [apply deque_append_length; assumption|].
    unfold deque_append. rewrite length_app. simpl. split; intros H.
    + replace (N <? length d + 1)%nat with false
        by (symmetry; apply Nat.ltb_ge; lia).
      reflexivity.
    + replace (N <? length d + 1)%nat with true
        by (symmetry; apply Nat.ltb_lt; lia).
      destruct d as [|y d]; [simpl in H; lia|]. reflexivity.
  - intros A N xs d Hd. rewrite (push_all_last_n N xs d Hd).
    split; [reflexivity|apply last_n_length].
  - intros O events s key Hlen s'. subst s'.
    rewrite (volume_window_run O events s key Hlen).
    split; [reflexivity|apply last_n_length].
  - intros O events s key Hlen s'. subst s'.
    rewrite (price_window_run O events s key Hlen).
    split; [reflexivity|apply last_n_length].
Qed.

Lemma rolling_windows_bounded_fifo_witness :
  let events :=
    map (fun n => EvSwap (sample_swap (inject_Z (Z.of_nat n)))) (seq 0 52) in
  let key := pair_key usdc_weth in
  let s' := run_events sample_oracles events fresh in
  window (volume_history (self s')) key
  = last_n 50 (window (volume_history (self fresh)) key
               ++ volume_samples key events)
  /\ length (window (volume_history (self s')) key) <= 50.
Proof.
  apply (proj1 (proj2 (proj2 rolling_windows_bounded_fifo)) sample_oracles
           (map (fun n => EvSwap (sample_swap (inject_Z (Z.of_nat n))))
                (seq 0 52))
           fresh (pair_key usdc_weth)).
  vm_compute. lia.
Defined.

(** ** The volume-spike scenario *)



Lemma process_swap_suppressed (O : Oracles) (e : SwapEvent) (s : St) :
  spike_condition (window_after_swap e s) (volume_usd e)
                  (volume_spike_threshold (self s)) = true ->
  on_cooldown O s (volume_spike_key (swap_pair e)) ->
  process_event O (EvSwap e) s
  = (Normal tt, with_clock (volume_pushed e s) (S (clock_reads s))).
Proof.
  intros H Hon. rewrite process_swap_eq. unfold try_except.
  rewrite (_check_volume_spike_eq O _ _ _ _ (volume_pushed_lookup e s)).
  change (volume_spike_threshold (self (volume_pushed e s)))
    with (volume_spike_threshold (self s)).
  rewrite H.
  rewrite (check_on_cooldown O _ (volume_pushed e s) Hon). reflexivity.
Qed.




(** *** Rounding along the scenario *)



















(** ** Volume spikes *)

(** The rule rounds: with a baseline of nine swaps of 0.1 the rounded
    mean falls just below 0.1, and a tenth swap of 0.2, which is not
    more than twice 0.1, fires an alert. *)
Example rounded_mean_lets_double_fire :
  let events := map EvSwap (repeat (sample_swap (1 # 10)) 9)
                ++ [EvSwap (sample_swap (2 # 10))] in
  map alert_detail
      (emitted (new_io fresh (run_events sample_oracles events fresh)))
  = [VolumeDetail usdc_weth
       (Fin (3602879701896397 # 18014398509481984))
       (Fin (7205759403792793 # 72057594037927936))
       (Fin (4503599627370497 # 2251799813685248))].
Proof. vm_compute. reflexivity. Qed.




(** ** The trace is append-only *)

Create HintDb extends.

Lemma extends_ret {A} (a : A) : extends_trace (ret a).
Proof. intros s. exists []. simpl. rewrite app_nil_r. reflexivity. Qed.

Lemma extends_raise {A} (e : PyExn) : extends_trace (@raise A e).
Proof. intros s. exists []. simpl. rewrite app_nil_r. reflexivity. Qed.

Lemma extends_bind {A B} (c : M A) (k : A -> M B) :
  extends_trace c -> (forall a, extends_trace (k a)) -> extends_trace (bind c k).
Proof.
  intros Hc Hk s. unfold bind. destruct (Hc s) as [t1 H1].
  destruct (c s) as [[a|e] s1]; simpl in *.
  - destruct (Hk a s1) as [t2 H2]. exists (t1 ++ t2).
    rewrite H2, H1, app_assoc. reflexivity.
  - exists t1. exact H1.
Qed.

Lemma extends_try_except {A} (c : M A) (h : PyExn -> M A) :
  extends_trace c -> (forall e, extends_trace (h e)) ->
  extends_trace (try_except c h).
Proof.
  intros Hc Hh s. unfold try_except. destruct (Hc s) as [t1 H1].
  destruct (c s) as [[a|e] s1]; simpl in *.
  - exists t1. exact H1.
  - destruct (is_Exception e); [|exists t1; exact H1].
    destruct (Hh e s1) as [t2 H2]. exists (t1 ++ t2).
    rewrite H2, H1, app_assoc. reflexivity.
Qed.

Lemma extends_for_each {A} (xs : list A) (body : A -> M unit) :
  (forall x, extends_trace (body x)) -> extends_trace (for_each xs body).
Proof.
  intros Hb. induction xs as [|x xs IH]; simpl.
  - apply extends_ret.
  - apply extends_bind; [apply Hb|intros _; exact IH].
Qed.

Lemma extends_if {A} (b : bool) (c1 c2 : M A) :
  extends_trace c1 -> extends_trace c2 -> extends_trace (if b then c1 else c2).
Proof. destruct b; auto. Qed.

Lemma extends_get_self : extends_trace get_self.
Proof. intros s. exists []. simpl. rewrite app_nil_r. reflexivity. Qed.

Lemma extends_set_self (m : AlertManager) : extends_trace (set_self m).
Proof. intros s. exists []. simpl. rewrite app_nil_r. reflexivity. Qed.

Lemma extends_get_trace : extends_trace get_trace.
Proof. intros s. exists []. simpl. rewrite app_nil_r. reflexivity. Qed.

Lemma extends_emit_io (io : IO) : extends_trace (emit_io io).
Proof. intros s. exists [io]. reflexivity. Qed.

Lemma extends_utcnow (O : Oracles) : extends_trace (utcnow O).
Proof. intros s. exists []. simpl. rewrite app_nil_r. reflexivity. Qed.

Lemma extends_uuid4 (O : Oracles) : extends_trace (uuid4 O).
Proof. intros s. exists []. simpl. rewrite app_nil_r. reflexivity. Qed.

Lemma extends_py_div (x y : Q) : extends_trace (py_div x y).
Proof.
  unfold py_div. destruct (Qeq_bool y 0); [apply extends_raise|apply extends_ret].
Qed.

Lemma extends_fl_div (x y : F64) : extends_trace (fl_div x y).
Proof.
  unfold fl_div. destruct (fl_is_zero y); [apply extends_raise|apply extends_ret].
Qed.

#[local] Hint Resolve extends_ret extends_raise extends_get_self
  extends_set_self extends_get_trace extends_emit_io extends_utcnow
  extends_uuid4 extends_py_div extends_fl_div : extends.

Ltac extends_step :=
  match goal with
  | |- extends_trace (bind _ _) => apply extends_bind; [|intros ?]
  | |- extends_trace (try_except _ _) => apply extends_try_except; [|intros ?]
  | |- extends_trace (for_each _ _) => apply extends_for_each; intros ?
  | |- extends_trace (if _ then _ else _) => apply extends_if
  | |- extends_trace (match ?x with Some _ => _ | None => _ end) => destruct x
  | |- extends_trace _ => solve [auto with extends]
  end.

Lemma extends__emit_alert (O : Oracles) (a : Alert) :
  extends_trace (_emit_alert O a).
Proof.
  unfold _emit_alert, insert_alert, call_callback, logger_error, logger_info.
  repeat extends_step.
Qed.

Lemma extends__is_on_cooldown (O : Oracles) (key : string) :
  extends_trace (_is_on_cooldown O key).
Proof. unfold _is_on_cooldown. repeat extends_step. Qed.

Lemma extends_mark_cooldown (O : Oracles) (key : string) :
  extends_trace (mark_cooldown O key).
Proof. unfold mark_cooldown. repeat extends_step. Qed.

#[local] Hint Resolve extends__emit_alert extends__is_on_cooldown
  extends_mark_cooldown : extends.

Lemma extends_dispatch (O : Oracles) (ev : Event) :
  extends_trace (dispatch O ev).
Proof.
  destruct ev as [e|e|pd|r]; simpl.
  - unfold _process_swap_event, _check_volume_spike, volume_history_getitem,
      _check_price_movement.
    repeat extends_step.
  - unfold _process_liquidity_event.
    destruct (liq_event_type e); repeat extends_step.
  - unfold _process_price_data, _check_stablecoin_depeg, price_history_getitem.
    repeat extends_step.
  - apply extends_ret.
Qed.

(** What [new_io] returns for a step of [process_event] or of
    [resolve_alert] is exactly what the step appended to the trace. *)
Lemma process_event_trace (O : Oracles) (ev : Event) (s : St) :
  trace (snd (process_event O ev s))
  = trace s ++ new_io s (snd (process_event O ev s)).
Proof.
  assert (H : extends_trace (process_event O ev)).
  { unfold process_event, logger_error. apply extends_try_except.
    - apply extends_dispatch.
    - intros e. apply extends_emit_io. }
  destruct (H s) as [t Ht]. rewrite (new_io_app _ _ _ Ht). exact Ht.
Qed.

Lemma resolve_alert_trace (O : Oracles) (id : string) (s : St) :
  trace (snd (resolve_alert O id s))
  = trace s ++ new_io s (snd (resolve_alert O id s)).
Proof.
  assert (H : extends_trace (resolve_alert O id)).
  { unfold resolve_alert, insert_alert, logger_info. repeat extends_step. }
  destruct (H s) as [t Ht]. rewrite (new_io_app _ _ _ Ht). exact Ht.
Qed.

(** ** Invariants of the dictionary of active alerts

    Any property of the dictionary that assignment and deletion preserve
    is maintained by every operation of the manager. *)

Create HintDb keeps.

Section ActiveAlertsInvariant.
Variable P : list (string * Alert) -> Prop.
Hypothesis P_set : forall k v d, P d -> P (PyDict.set k v d).
Hypothesis P_del : forall k d, P d -> P (PyDict.del k d).
Variable O : Oracles.

Lemma keeps_ret {A} (a : A) : keeps P (ret a).
Proof. intros s H. exact H. Qed.

Lemma keeps_raise {A} (e : PyExn) : keeps P (@raise A e).
Proof. intros s H. exact H. Qed.

Lemma keeps_bind {A B} (c : M A) (k : A -> M B) :
  keeps P c -> (forall a, keeps P (k a)) -> keeps P (bind c k).
Proof.
  intros Hc Hk s H. unfold bind. specialize (Hc s H).
  destruct (c s) as [[a|e] s1]; [apply Hk|]; exact Hc.
Qed.

Lemma keeps_try_except {A} (c : M A) (h : PyExn -> M A) :
  keeps P c -> (forall e, keeps P (h e)) -> keeps P (try_except c h).
Proof.
  intros Hc Hh s H. unfold try_except. specialize (Hc s H).
  destruct (c s) as [[a|e] s1]; [exact Hc|].
  destruct (is_Exception e); [apply Hh|]; exact Hc.
Qed.

Lemma keeps_for_each {A} (xs : list A) (body : A -> M unit) :
  (forall x, keeps P (body x)) -> keeps P (for_each xs body).
Proof.
  intros Hb. induction xs as [|x xs IH]; simpl.
  - apply keeps_ret.
  - apply keeps_bind; [apply Hb|intros _; exact IH].
Qed.

(** After [m <- get_self], the continuation may rely on the invariant
    for [m]. *)
Lemma keeps_get_self {B} (k : AlertManager -> M B) :
  (forall m, P (active_alerts m) -> keeps P (k m)) -> keeps P (bind get_self k).
Proof. intros Hk s H. unfold bind, get_self. apply Hk; exact H. Qed.

Lemma keeps_set_self (m : AlertManager) :
  P (active_alerts m) -> keeps P (set_self m).
Proof. intros Hm s _. exact Hm. Qed.

Lemma keeps_emit_io (io : IO) : keeps P (emit_io io).
Proof. intros s H. exact H. Qed.

Lemma keeps_get_trace : keeps P get_trace.
Proof. intros s H. exact H. Qed.

Lemma keeps_utcnow : keeps P (utcnow O).
Proof. intros s H. exact H. Qed.

Lemma keeps_uuid4 : keeps P (uuid4 O).
Proof. intros s H. exact H. Qed.

Lemma keeps_py_div (x y : Q) : keeps P (py_div x y).
Proof. unfold py_div. destruct (Qeq_bool y 0); intros s H; exact H. Qed.

Lemma keeps_fl_div (x y : F64) : keeps P (fl_div x y).
Proof. unfold fl_div. destruct (fl_is_zero y); intros s H; exact H. Qed.

Lemma keeps_if {A} (b : bool) (c1 c2 : M A) :
  keeps P c1 -> keeps P c2 -> keeps P (if b then c1 else c2).
Proof. destruct b; auto. Qed.

#[local] Hint Resolve keeps_ret keeps_raise keeps_emit_io keeps_get_trace keeps_utcnow
  keeps_uuid4 keeps_py_div keeps_fl_div : keeps.

(** One step of the syntax-directed proof that a computation maintains
    the invariant. *)
Ltac keeps_step :=
  match goal with
  | |- keeps _ (bind get_self _) => apply keeps_get_self; intros ? ?
  | |- keeps _ (bind _ _) => apply keeps_bind; [|intros ?]
  | |- keeps _ (try_except _ _) => apply keeps_try_except; [|intros ?]
  | |- keeps _ (for_each _ _) => apply keeps_for_each; intros ?
  | |- keeps _ (if _ then _ else _) => apply keeps_if
  | |- keeps _ (set_self _) => apply keeps_set_self
  | |- keeps _ (match ?x with Some _ => _ | None => _ end) => destruct x
  | |- keeps _ _ => solve [auto with keeps]
  end.

Lemma keeps_insert_alert (a : Alert) : keeps P (insert_alert O a).
Proof. unfold insert_alert. repeat keeps_step. Qed.

Lemma keeps_call_callback (cb : nat) (a : Alert) : keeps P (call_callback O cb a).
Proof. unfold call_callback. repeat keeps_step. Qed.

Lemma keeps_logger_error (msg : string) : keeps P (logger_error msg).
Proof. apply keeps_emit_io. Qed.

Lemma keeps_logger_info (msg : string) : keeps P (logger_info msg).
Proof. apply keeps_emit_io. Qed.

#[local] Hint Resolve keeps_insert_alert keeps_call_callback keeps_logger_error
  keeps_logger_info : keeps.

Lemma keeps_add_alert_callback (cb : nat) : keeps P (add_alert_callback cb).
Proof. unfold add_alert_callback. repeat keeps_step. assumption. Qed.

Lemma keeps_volume_history_getitem (key : string) :
  keeps P (volume_history_getitem key).
Proof. unfold volume_history_getitem. repeat keeps_step. assumption. Qed.

Lemma keeps_price_history_getitem (key : string) :
  keeps P (price_history_getitem key).
Proof. unfold price_history_getitem. repeat keeps_step. assumption. Qed.

Lemma keeps__is_on_cooldown (key : string) : keeps P (_is_on_cooldown O key).
Proof. unfold _is_on_cooldown. repeat keeps_step. Qed.

Lemma keeps_mark_cooldown (key : string) : keeps P (mark_cooldown O key).
Proof. unfold mark_cooldown. repeat keeps_step. assumption. Qed.

Lemma keeps__emit_alert (a : Alert) : keeps P (_emit_alert O a).
Proof. unfold _emit_alert. repeat keeps_step. apply P_set. assumption. Qed.

#[local] Hint Resolve keeps_add_alert_callback keeps_volume_history_getitem
  keeps_price_history_getitem keeps__is_on_cooldown keeps_mark_cooldown
  keeps__emit_alert : keeps.

Lemma keeps__check_volume_spike (p : TradingPair) (v : F64) :
  keeps P (_check_volume_spike O p v).
Proof. unfold _check_volume_spike. repeat keeps_step. Qed.

Lemma keeps__check_stablecoin_depeg (pd : PriceData) :
  keeps P (_check_stablecoin_depeg O pd).
Proof. unfold _check_stablecoin_depeg. repeat keeps_step. Qed.

#[local] Hint Resolve keeps__check_volume_spike keeps__check_stablecoin_depeg : keeps.

Lemma keeps__process_swap_event (e : SwapEvent) :
  keeps P (_process_swap_event O e).
Proof.
  unfold _process_swap_event, _check_price_movement.
  repeat keeps_step. assumption.
Qed.

Lemma keeps__process_liquidity_event (e : LiquidityEvent) :
  keeps P (_process_liquidity_event O e).
Proof.
  unfold _process_liquidity_event.
  destruct (liq_event_type e); repeat keeps_step.
Qed.

Lemma keeps__process_price_data (pd : PriceData) :
  keeps P (_process_price_data O pd).
Proof. unfold _process_price_data. repeat keeps_step. assumption. Qed.

Lemma keeps_process_event (ev : Event) : keeps P (process_event O ev).
Proof.
  unfold process_event, dispatch. apply keeps_try_except.
  - destruct ev.
    + apply keeps__process_swap_event.
    + apply keeps__process_liquidity_event.
    + apply keeps__process_price_data.
    + apply keeps_ret.
  - intros e. apply keeps_logger_error.
Qed.

Lemma keeps_resolve_alert (id : string) : keeps P (resolve_alert O id).
Proof.
  unfold resolve_alert. repeat keeps_step.
  - apply P_set. assumption.
  - apply P_del. assumption.
Qed.

End ActiveAlertsInvariant.

(** The dictionary of active alerts of a new manager is well formed, and
    stays so under every event and every resolution. *)
Lemma well_formed_init (a b c : option Q) (n k : nat) (t : list IO) :
  well_formed (mkSt (init a b c) n k t).
Proof. apply NoDup_nil_2. Qed.

Lemma well_formed_process_event (O : Oracles) (ev : Event) (s : St) :
  well_formed s -> well_formed (snd (process_event O ev s)).
Proof.
  apply keeps_process_event. intros k v d. apply PyDictFacts.NoDup_keys_set.
Qed.

Lemma well_formed_resolve_alert (O : Oracles) (id : string) (s : St) :
  well_formed s -> well_formed (snd (resolve_alert O id s)).
Proof.
  apply keeps_resolve_alert.
  - intros k v d. apply PyDictFacts.NoDup_keys_set.
  - intros k d. apply PyDictFacts.NoDup_keys_del.
Qed.

(** ** What can leave [process_event] *)

Create HintDb contained.

Section Containment.
Variable O : Oracles.
Hypothesis in_class : nothing_escapes O.

Lemma contained_ret {A} (a : A) : contained (ret a).
Proof. intros s e s' H. discriminate. Qed.

Lemma contained_raise {A} (e : PyExn) :
  is_Exception e = true -> contained (@raise A e).
Proof. intros He s e' s' H. injection H as <- _. exact He. Qed.

Lemma contained_bind {A B} (c : M A) (k : A -> M B) :
  contained c -> (forall a, contained (k a)) -> contained (bind c k).
Proof.
  intros Hc Hk s e s' H. unfold bind in H.
  destruct (c s) as [[a|e1] s1] eqn:E.
  - exact (Hk a s1 e s' H).
  - injection H as <- <-. exact (Hc s e1 s1 E).
Qed.

Lemma contained_try_except {A} (c : M A) (h : PyExn -> M A) :
  contained c -> (forall e, contained (h e)) -> contained (try_except c h).
Proof.
  intros Hc Hh s e s' H. unfold try_except in H.
  destruct (c s) as [[a|e1] s1] eqn:E; [discriminate|].
  rewrite (Hc s e1 s1 E) in H. exact (Hh e1 s1 e s' H).
Qed.

Lemma contained_for_each {A} (xs : list A) (body : A -> M unit) :
  (forall x, contained (body x)) -> contained (for_each xs body).
Proof.
  intros Hb. induction xs as [|x xs IH]; simpl.
  - apply contained_ret.
  - apply contained_bind; [apply Hb|intros _; exact IH].
Qed.

Lemma contained_if {A} (b : bool) (c1 c2 : M A) :
  contained c1 -> contained c2 -> contained (if b then c1 else c2).
Proof. destruct b; auto. Qed.

Lemma contained_get_self : contained get_self.
Proof. intros s e s' H. discriminate. Qed.

Lemma contained_set_self (m : AlertManager) : contained (set_self m).
Proof. intros s e s' H. discriminate. Qed.

Lemma contained_get_trace : contained get_trace.
Proof. intros s e s' H. discriminate. Qed.

Lemma contained_emit_io (io : IO) : contained (emit_io io).
Proof. intros s e s' H. discriminate. Qed.

Lemma contained_utcnow : contained (utcnow O).
Proof. intros s e s' H. discriminate. Qed.

Lemma contained_uuid4 : contained (uuid4 O).
Proof. intros s e s' H. discriminate. Qed.

Lemma contained_py_div (x y : Q) : contained (py_div x y).
Proof.
  unfold py_div. destruct (Qeq_bool y 0).
  - apply contained_raise. reflexivity.
  - apply contained_ret.
Qed.

Lemma contained_fl_div (x y : F64) : contained (fl_div x y).
Proof.
  unfold fl_div. destruct (fl_is_zero y).
  - apply contained_raise. reflexivity.
  - apply contained_ret.
Qed.

(** The sink and the callbacks are where the hypothesis is used. *)
Lemma contained_insert_alert (a : Alert) : contained (insert_alert O a).
Proof.
  intros s e s' H. unfold insert_alert, bind, get_trace in H.
  destruct (insert_alert_raises O (trace s) a) eqn:E; [|discriminate].
  cbn in H. rewrite (proj1 in_class _ _ E) in H.
  injection H as <- _. reflexivity.
Qed.

Lemma contained_call_callback (cb : nat) (a : Alert) :
  contained (call_callback O cb a).
Proof.
  intros s e s' H. unfold call_callback, bind, get_trace in H.
  destruct (callback_raises O cb (trace s) a) eqn:E; [|discriminate].
  cbn in H. rewrite (proj2 in_class a cb _ E) in H.
  injection H as <- _. reflexivity.
Qed.

#[local] Hint Resolve contained_ret contained_get_self contained_set_self
  contained_get_trace contained_emit_io contained_utcnow contained_uuid4
  contained_py_div contained_fl_div contained_insert_alert
  contained_call_callback : contained.

(** One step of the syntax-directed proof that a computation raises
    nothing outside class [Exception]. *)
Ltac contained_step :=
  match goal with
  | |- contained (bind _ _) => apply contained_bind; [|intros ?]
  | |- contained (try_except _ _) => apply contained_try_except; [|intros ?]
  | |- contained (for_each _ _) => apply contained_for_each; intros ?
  | |- contained (if _ then _ else _) => apply contained_if
  | |- contained (match ?x with Some _ => _ | None => _ end) => destruct x
  | |- contained (logger_error _) => apply contained_emit_io
  | |- contained (logger_info _) => apply contained_emit_io
  | |- contained _ => solve [auto with contained]
  end.

Lemma contained__emit_alert (a : Alert) : contained (_emit_alert O a).
Proof. unfold _emit_alert. repeat contained_step. Qed.

Lemma contained__is_on_cooldown (key : string) :
  contained (_is_on_cooldown O key).
Proof. unfold _is_on_cooldown. repeat contained_step. Qed.

Lemma contained_mark_cooldown (key : string) : contained (mark_cooldown O key).
Proof. unfold mark_cooldown. repeat contained_step. Qed.

Lemma contained_volume_history_getitem (key : string) :
  contained (volume_history_getitem key).
Proof. unfold volume_history_getitem. repeat contained_step. Qed.

Lemma contained_price_history_getitem (key : string) :
  contained (price_history_getitem key).
Proof. unfold price_history_getitem. repeat contained_step. Qed.

#[local] Hint Resolve contained__emit_alert contained__is_on_cooldown
  contained_mark_cooldown contained_volume_history_getitem
  contained_price_history_getitem : contained.

Lemma contained_dispatch (ev : Event) : contained (dispatch O ev).
Proof.
  destruct ev as [e|e|pd|r]; simpl.
  - unfold _process_swap_event, _check_volume_spike, _check_price_movement.
    repeat contained_step.
  - unfold _process_liquidity_event.
    destruct (liq_event_type e); repeat contained_step.
  - unfold _process_price_data, _check_stablecoin_depeg.
    repeat contained_step.
  - apply contained_ret.
Qed.

End Containment.

(** C10, as stated, fails: with callbacks 0 and 1 registered, a large
    removal makes the manager emit an alert; what callback 0 raises is a
    cancellation, which [except Exception] does not catch, neither in the
    loop over the callbacks nor in [process_event]: the exception reaches
    the caller, and nothing is logged. *)
Lemma cancellation_leaves_process_event :
  let s1 := snd (for_each [0; 1] add_alert_callback fresh) in
  let ev := EvLiquidity (sample_removal (-(1500000))%Q) in
  let a := liquidity_alert "alert-0" (sample_removal (-(1500000))%Q) in
  let r := process_event cancelling_oracles ev s1 in
  fst r = Raised (CallbackBaseException 0)
  /\ new_io s1 (snd r) = [DbInsertAlert a false; CallbackCall 0 a true].
Proof.
  repeat split.
Qed.

(** C10, amended.  Whatever it is handed, [process_event] lets no
    instance of [Exception] through: such an exception, raised while
    dispatching or evaluating a rule, is caught, one error line is
    logged, the state reached at the raise is kept, and the call returns
    normally.  What is raised outside class [Exception] reaches the
    caller, with the state reached at the raise and nothing logged; this
    can only come from the persistence sink or from a callback, so that
    when neither of them raises outside class [Exception] the call
    returns normally.  An object of an unrecognised class is ignored and
    changes nothing. *)
Theorem process_event_catches_exceptions (O : Oracles) (ev : Event) (s : St) :
  let r := process_event O ev s in
  (fst r = Normal tt \/ exists e, fst r = Raised e /\ is_Exception e = false)
  /\ (forall e s1, dispatch O ev s = (Raised e, s1) ->
        is_Exception e = true ->
        r = (Normal tt, with_trace s1 [LogError process_error_msg]))
  /\ (forall e s1, dispatch O ev s = (Raised e, s1) ->
        is_Exception e = false ->
        r = (Raised e, s1))
  /\ (nothing_escapes O -> fst r = Normal tt)
  /\ (forall repr, ev = EvOther repr -> r = (Normal tt, s)).
Proof.
  intros r. subst r. rewrite process_event_eq.
  split; [|split; [|split; [|split]]].
  - unfold try_except. destruct (dispatch O ev s) as [[[]|e] s1].
    + left. reflexivity.
    + destruct (is_Exception e) eqn:E.
      * left. reflexivity.
      * right. exists e. split; [reflexivity|exact E].
  - intros e s1 H He. rewrite (try_except_raised _ _ _ _ _ H He).
    apply log_and_continue_eq.
  - intros e s1 H He. apply (try_except_escaped _ _ _ _ _ H He).
  - intros Hno. unfold try_except.
    destruct (dispatch O ev s) as [[[]|e] s1] eqn:E; [reflexivity|].
    rewrite (contained_dispatch O Hno ev s e s1 E). reflexivity.
  - intros repr ->. reflexivity.
Qed.

(** The handler is not idle: with a sink that rejects writes, the rule
    for large removals raises inside [dispatch]. *)
Example dispatch_can_raise :
  fst (dispatch failing_sink_oracles
         (EvLiquidity (sample_removal (-(1500000))%Q)) fresh)
  = Raised SinkError.
Proof. reflexivity. Qed.

Lemma process_event_catches_exceptions_witness :
  let ev := EvLiquidity (sample_removal (-(1500000))%Q) in
  let s1 := snd (dispatch failing_sink_oracles ev fresh) in
  process_event failing_sink_oracles ev fresh
  = (Normal tt, with_trace s1 [LogError process_error_msg]).
Proof.
  apply (proj1 (proj2 (process_event_catches_exceptions failing_sink_oracles
           (EvLiquidity (sample_removal (-(1500000))%Q)) fresh)) SinkError);
    reflexivity.
Defined.
